(** * destiny-power-bars: the top-level application controller (App.tsx)

    A shallow embedding of the refresh controller and of the display-order
    reconciler of [App], and the properties of them that the specification
    states.  React state variables become the fields of one record,
    [AppState]; every callback of the component becomes a function on that
    record; the collaborators the component calls (analytics, the persisted
    display order) are fields of the same record, so that the order of the
    calls can be observed. *)

From Stdlib Require Import ZArith Lia Permutation.
From stdpp Require Import base list strings gmap pretty.

(** ** The JavaScript primitives the component uses *)

Module JS.

(** Numbers.  Character power levels are integers; the only other value
    that [Math.max] can produce from them is [-Infinity], its result on an
    empty argument list.  [Num z] stands for the double that is the
    integer [z], which exists, and behaves as the integer does under [+]
    and in a template literal, as long as [z] and the results computed
    from it are safe integers ([isSafeInteger] below): what is stated
    about the value of a sum or about the digits of a number assumes
    that. *)
Inductive number : Set :=
| NegInfinity
| Num (z : Z).

(** [Number.isSafeInteger(z)]: at most [Number.MAX_SAFE_INTEGER], which is
    2^53 - 1, in absolute value. *)
Definition isSafeInteger (z : Z) : Prop :=
  (-9007199254740991 ≤ z ≤ 9007199254740991)%Z.

(** One step of [Math.max]: the larger of the running maximum and the
    next argument. *)
Definition max2 (a b : number) : number :=
  match a, b with
  | NegInfinity, _ => b
  | _, NegInfinity => a
  | Num x, Num y => Num (Z.max x y)
  end.

(** [Math.max(...xs)]: starts from [-Infinity] and scans the arguments
    from left to right. *)
Definition Math_max (xs : list number) : number :=
  fold_left max2 xs NegInfinity.

(** [a + b], for safe integers with a safe sum, on which the addition of
    doubles is exact, and for [-Infinity]; a sum beyond the safe integers
    is rounded by the code and not by this definition. *)
Definition add (a b : number) : number :=
  match a, b with
  | Num x, Num y => Num (x + y)
  | _, _ => NegInfinity
  end.

(** The template literal [`${n}`], for [-Infinity] and for safe
    integers, which print as their decimal digits; from 1e21 on the code
    prints an exponent and this definition does not. *)
Definition toString (n : number) : string :=
  match n with
  | NegInfinity => "-Infinity"
  | Num z => pretty z
  end.

(** Truthiness of a [string | undefined]: [undefined] and the empty
    string are falsy. *)
Definition truthy (s : option string) : bool :=
  match s with
  | None => false
  | Some s => negb (String.eqb s "")
  end.

Section Arrays.
Context {A : Type}.

(** [xs.every(f)] and [xs.some(f)] *)
Definition every (f : A -> bool) (xs : list A) : bool := forallb f xs.
Definition some (f : A -> bool) (xs : list A) : bool := existsb f xs.

(** [xs.splice(start, deleteCount, ...items)], as the array it leaves
    behind.  A negative [start] counts from the end of the array and
    is clamped at 0, a [start] beyond the end is clamped to the length,
    and [deleteCount] is clamped to what is left after [start]. *)
Definition splice (xs : list A) (start deleteCount : Z) (items : list A)
  : list A :=
  let len := Z.of_nat (length xs) in
  let actualStart :=
    if (start <? 0)%Z then Z.max (len + start) 0 else Z.min start len in
  let actualDeleteCount :=
    Z.min (Z.max deleteCount 0) (len - actualStart) in
  take (Z.to_nat actualStart) xs ++ items
    ++ drop (Z.to_nat (actualStart + actualDeleteCount)) xs.
(** [xs.find(f)]: the first element that satisfies [f], or [undefined]. *)
Fixpoint find (f : A -> bool) (xs : list A) : option A :=
  match xs with
  | [] => None
  | x :: xs' => if f x then Some x else find f xs'
  end.
End Arrays.

(** [xs.indexOf(x)] on an array of strings: the first index holding a
    string [===] to [x], or -1. *)
Fixpoint indexOf_from (xs : list string) (x : string) (i : Z) : Z :=
  match xs with
  | [] => (-1)%Z
  | y :: xs' => if String.eqb y x then i else indexOf_from xs' x (i + 1)
  end.

Definition indexOf (xs : list string) (x : string) : Z :=
  indexOf_from xs x 0.

(** [xs.includes(x)] on an array of strings *)
Definition includes (xs : list string) (x : string) : bool :=
  existsb (fun y => String.eqb y x) xs.

End JS.

(** ** The data the component reads (types.ts, bungie-api.ts) *)

(** Only the fields [App] reads are kept. *)
Record DestinyCharacter : Set := { characterId : string }.

Record ArtifactData : Set := { bonusPower : Z }.

Record PowerBarsCharacterData : Set := {
  character : DestinyCharacter;
  overallPower : Z;
  artifactData : option ArtifactData
}.

(** A value caught by [catch] or returned in [manifestResult.error]: what
    [instanceof BungieSystemDisabledError] and [.message] say about it. *)
Record JsError : Set := {
  isBungieSystemDisabledError : bool;
  message : string
}.

(** The events of services/events.ts that [App] subscribes to. *)
Inductive EVENTS : Set :=
| GET_MANIFEST
| LOAD_MANIFEST_DATA
| FETCH_MANIFEST_DATA
| PARSE_MANIFEST_DATA
| STORE_MANIFEST_DATA
| MANIFEST_DATA_READY
| MANIFEST_FETCH_ERROR
| LOG_OUT.

(** What the [status] variable can hold: a string, or one of the four
    [<span>] elements the component builds. *)
Inductive Status : Set :=
| StatusText (s : string)
| BungieApiDisabled          (* "Bungie API disabled. ..." *)
| BungieApiUnavailable       (* "Bungie API unavailable. ..." *)
| AuthenticationRequired     (* "Bungie.net authentication required" *)
| ManifestFetchFailed.       (* "Error fetching manifest, refresh page ..." *)

(** The three custom dimensions handed to [ga.set]. *)
Record GaDimensions : Set := {
  dimension1 : string;
  dimension2 : string;
  dimension3 : string
}.

(** The calls the component makes to its collaborators and to the state
    setter that publishes character data, in the order they are made. *)
Inductive Effect : Set :=
| GaSet (d : GaDimensions)
| GaEvent (category action label : string)
| SetSelectedDestinyMembership (membershipType : Z)
| SetCharacterData (newData : list PowerBarsCharacterData)
| SaveCharacterDisplayOrder (order : list string).

(** How an awaited promise settles. *)
Inductive Settled (R : Type) : Type :=
| Fulfilled (r : R)
| Rejected (e : JsError).
Arguments Fulfilled {R} r.
Arguments Rejected {R} e.

(** What [getCharacterData] does with the two callbacks it is given, in
    the order it calls them. *)
Inductive FetchCallback : Set :=
| OnData (newData : list PowerBarsCharacterData)
| OnFetchingChange (value : bool).

(** ** The component state *)

Section Controller.

(** [ManifestData] of services/bungie-api.ts: the controller only stores
    it and hands it to [VendorDisplay]. *)
Context {ManifestData : Type}.

(** What [getManifest] resolves to: [{ error }] or [{ manifest }]. *)
Inductive ManifestResult : Type :=
| ManifestError (error : JsError)
| ManifestOk (manifest : ManifestData).

(** One field per [useState] of [App], then the persisted display order
    ([loadCharacterDisplayOrder] / [saveCharacterDisplayOrder]) and the
    calls made so far. *)
Record AppState : Type := {
  disableManualLogin : bool;
  isAuthed : bool;
  hasAuthError : bool;
  hasSelectedMembership : bool;
  manifestData : option ManifestData;
  hasManifestError : bool;
  isBungieSystemDisabled : bool;
  isBungieServiceUnavailable : bool;
  isFetchingCharacterData : bool;
  characterData : option (list PowerBarsCharacterData);
  manifestState : string;
  draggingCharacterId : option string;
  characterDisplayOrder : option (list string);
  persistedOrder : option (list string);
  effects : list Effect
}.

Definition setDisableManualLogin (value : bool) (st : AppState) : AppState :=
  {| disableManualLogin := value; isAuthed := isAuthed st;
     hasAuthError := hasAuthError st;
     hasSelectedMembership := hasSelectedMembership st;
     manifestData := manifestData st;
     hasManifestError := hasManifestError st;
     isBungieSystemDisabled := isBungieSystemDisabled st;
     isBungieServiceUnavailable := isBungieServiceUnavailable st;
     isFetchingCharacterData := isFetchingCharacterData st;
     characterData := characterData st; manifestState := manifestState st;
     draggingCharacterId := draggingCharacterId st;
     characterDisplayOrder := characterDisplayOrder st;
     persistedOrder := persistedOrder st; effects := effects st |}.

Definition setIsAuthed (value : bool) (st : AppState) : AppState :=
  {| disableManualLogin := disableManualLogin st; isAuthed := value;
     hasAuthError := hasAuthError st;
     hasSelectedMembership := hasSelectedMembership st;
     manifestData := manifestData st;
     hasManifestError := hasManifestError st;
     isBungieSystemDisabled := isBungieSystemDisabled st;
     isBungieServiceUnavailable := isBungieServiceUnavailable st;
     isFetchingCharacterData := isFetchingCharacterData st;
     characterData := characterData st; manifestState := manifestState st;
     draggingCharacterId := draggingCharacterId st;
     characterDisplayOrder := characterDisplayOrder st;
     persistedOrder := persistedOrder st; effects := effects st |}.

Definition setAuthError (value : bool) (st : AppState) : AppState :=
  {| disableManualLogin := disableManualLogin st; isAuthed := isAuthed st;
     hasAuthError := value;
     hasSelectedMembership := hasSelectedMembership st;
     manifestData := manifestData st;
     hasManifestError := hasManifestError st;
     isBungieSystemDisabled := isBungieSystemDisabled st;
     isBungieServiceUnavailable := isBungieServiceUnavailable st;
     isFetchingCharacterData := isFetchingCharacterData st;
     characterData := characterData st; manifestState := manifestState st;
     draggingCharacterId := draggingCharacterId st;
     characterDisplayOrder := characterDisplayOrder st;
     persistedOrder := persistedOrder st; effects := effects st |}.

Definition setHasMembership (value : bool) (st : AppState) : AppState :=
  {| disableManualLogin := disableManualLogin st; isAuthed := isAuthed st;
     hasAuthError := hasAuthError st; hasSelectedMembership := value;
     manifestData := manifestData st;
     hasManifestError := hasManifestError st;
     isBungieSystemDisabled := isBungieSystemDisabled st;
     isBungieServiceUnavailable := isBungieServiceUnavailable st;
     isFetchingCharacterData := isFetchingCharacterData st;
     characterData := characterData st; manifestState := manifestState st;
     draggingCharacterId := draggingCharacterId st;
     characterDisplayOrder := characterDisplayOrder st;
     persistedOrder := persistedOrder st; effects := effects st |}.

Definition setManifestData (value : ManifestData) (st : AppState) : AppState :=
  {| disableManualLogin := disableManualLogin st; isAuthed := isAuthed st;
     hasAuthError := hasAuthError st;
     hasSelectedMembership := hasSelectedMembership st;
     manifestData := Some value; hasManifestError := hasManifestError st;
     isBungieSystemDisabled := isBungieSystemDisabled st;
     isBungieServiceUnavailable := isBungieServiceUnavailable st;
     isFetchingCharacterData := isFetchingCharacterData st;
     characterData := characterData st; manifestState := manifestState st;
     draggingCharacterId := draggingCharacterId st;
     characterDisplayOrder := characterDisplayOrder st;
     persistedOrder := persistedOrder st; effects := effects st |}.

Definition setManifestError (value : bool) (st : AppState) : AppState :=
  {| disableManualLogin := disableManualLogin st; isAuthed := isAuthed st;
     hasAuthError := hasAuthError st;
     hasSelectedMembership := hasSelectedMembership st;
     manifestData := manifestData st; hasManifestError := value;
     isBungieSystemDisabled := isBungieSystemDisabled st;
     isBungieServiceUnavailable := isBungieServiceUnavailable st;
     isFetchingCharacterData := isFetchingCharacterData st;
     characterData := characterData st; manifestState := manifestState st;
     draggingCharacterId := draggingCharacterId st;
     characterDisplayOrder := characterDisplayOrder st;
     persistedOrder := persistedOrder st; effects := effects st |}.

Definition setBungieSystemDisabled (value : bool) (st : AppState) : AppState :=
  {| disableManualLogin := disableManualLogin st; isAuthed := isAuthed st;
     hasAuthError := hasAuthError st;
     hasSelectedMembership := hasSelectedMembership st;
     manifestData := manifestData st;
     hasManifestError := hasManifestError st;
     isBungieSystemDisabled := value;
     isBungieServiceUnavailable := isBungieServiceUnavailable st;
     isFetchingCharacterData := isFetchingCharacterData st;
     characterData := characterData st; manifestState := manifestState st;
     draggingCharacterId := draggingCharacterId st;
     characterDisplayOrder := characterDisplayOrder st;
     persistedOrder := persistedOrder st; effects := effects st |}.

Definition setBungieServiceUnavailable (value : bool)
    (st : AppState) : AppState :=
  {| disableManualLogin := disableManualLogin st; isAuthed := isAuthed st;
     hasAuthError := hasAuthError st;
     hasSelectedMembership := hasSelectedMembership st;
     manifestData := manifestData st;
     hasManifestError := hasManifestError st;
     isBungieSystemDisabled := isBungieSystemDisabled st;
     isBungieServiceUnavailable := value;
     isFetchingCharacterData := isFetchingCharacterData st;
     characterData := characterData st; manifestState := manifestState st;
     draggingCharacterId := draggingCharacterId st;
     characterDisplayOrder := characterDisplayOrder st;
     persistedOrder := persistedOrder st; effects := effects st |}.

Definition setIsFetchingCharacterData (value : bool)
    (st : AppState) : AppState :=
  {| disableManualLogin := disableManualLogin st; isAuthed := isAuthed st;
     hasAuthError := hasAuthError st;
     hasSelectedMembership := hasSelectedMembership st;
     manifestData := manifestData st;
     hasManifestError := hasManifestError st;
     isBungieSystemDisabled := isBungieSystemDisabled st;
     isBungieServiceUnavailable := isBungieServiceUnavailable st;
     isFetchingCharacterData := value; characterData := characterData st;
     manifestState := manifestState st;
     draggingCharacterId := draggingCharacterId st;
     characterDisplayOrder := characterDisplayOrder st;
     persistedOrder := persistedOrder st; effects := effects st |}.

Definition setManifestState (value : string) (st : AppState) : AppState :=
  {| disableManualLogin := disableManualLogin st; isAuthed := isAuthed st;
     hasAuthError := hasAuthError st;
     hasSelectedMembership := hasSelectedMembership st;
     manifestData := manifestData st;
     hasManifestError := hasManifestError st;
     isBungieSystemDisabled := isBungieSystemDisabled st;
     isBungieServiceUnavailable := isBungieServiceUnavailable st;
     isFetchingCharacterData := isFetchingCharacterData st;
     characterData := characterData st; manifestState := value;
     draggingCharacterId := draggingCharacterId st;
     characterDisplayOrder := characterDisplayOrder st;
     persistedOrder := persistedOrder st; effects := effects st |}.

Definition setDraggingCharacterId (value : option string)
    (st : AppState) : AppState :=
  {| disableManualLogin := disableManualLogin st; isAuthed := isAuthed st;
     hasAuthError := hasAuthError st;
     hasSelectedMembership := hasSelectedMembership st;
     manifestData := manifestData st;
     hasManifestError := hasManifestError st;
     isBungieSystemDisabled := isBungieSystemDisabled st;
     isBungieServiceUnavailable := isBungieServiceUnavailable st;
     isFetchingCharacterData := isFetchingCharacterData st;
     characterData := characterData st; manifestState := manifestState st;
     draggingCharacterId := value;
     characterDisplayOrder := characterDisplayOrder st;
     persistedOrder := persistedOrder st; effects := effects st |}.

Definition setCharacterDisplayOrder (value : option (list string))
    (st : AppState) : AppState :=
  {| disableManualLogin := disableManualLogin st; isAuthed := isAuthed st;
     hasAuthError := hasAuthError st;
     hasSelectedMembership := hasSelectedMembership st;
     manifestData := manifestData st;
     hasManifestError := hasManifestError st;
     isBungieSystemDisabled := isBungieSystemDisabled st;
     isBungieServiceUnavailable := isBungieServiceUnavailable st;
     isFetchingCharacterData := isFetchingCharacterData st;
     characterData := characterData st; manifestState := manifestState st;
     draggingCharacterId := draggingCharacterId st;
     characterDisplayOrder := value; persistedOrder := persistedOrder st;
     effects := effects st |}.

(** [setCharacterData] publishes a snapshot set; the call is also recorded
    among the effects, so that its place after [ga.set] can be stated. *)
Definition setCharacterData (value : list PowerBarsCharacterData)
    (st : AppState) : AppState :=
  {| disableManualLogin := disableManualLogin st; isAuthed := isAuthed st;
     hasAuthError := hasAuthError st;
     hasSelectedMembership := hasSelectedMembership st;
     manifestData := manifestData st;
     hasManifestError := hasManifestError st;
     isBungieSystemDisabled := isBungieSystemDisabled st;
     isBungieServiceUnavailable := isBungieServiceUnavailable st;
     isFetchingCharacterData := isFetchingCharacterData st;
     characterData := Some value; manifestState := manifestState st;
     draggingCharacterId := draggingCharacterId st;
     characterDisplayOrder := characterDisplayOrder st;
     persistedOrder := persistedOrder st;
     effects := effects st ++ [SetCharacterData value] |}.

(** Modelled from the spec: [ga.set] of services/ga.ts, the analytics sink
    (fire and forget): the call is recorded and nothing else changes. *)
Definition ga_set (d : GaDimensions) (st : AppState) : AppState :=
  {| disableManualLogin := disableManualLogin st; isAuthed := isAuthed st;
     hasAuthError := hasAuthError st;
     hasSelectedMembership := hasSelectedMembership st;
     manifestData := manifestData st;
     hasManifestError := hasManifestError st;
     isBungieSystemDisabled := isBungieSystemDisabled st;
     isBungieServiceUnavailable := isBungieServiceUnavailable st;
     isFetchingCharacterData := isFetchingCharacterData st;
     characterData := characterData st; manifestState := manifestState st;
     draggingCharacterId := draggingCharacterId st;
     characterDisplayOrder := characterDisplayOrder st;
     persistedOrder := persistedOrder st;
     effects := effects st ++ [GaSet d] |}.

(** Modelled from the spec: [ga.event] of services/ga.ts, recorded
    likewise. *)
Definition ga_event (category action label : string)
    (st : AppState) : AppState :=
  {| disableManualLogin := disableManualLogin st; isAuthed := isAuthed st;
     hasAuthError := hasAuthError st;
     hasSelectedMembership := hasSelectedMembership st;
     manifestData := manifestData st;
     hasManifestError := hasManifestError st;
     isBungieSystemDisabled := isBungieSystemDisabled st;
     isBungieServiceUnavailable := isBungieServiceUnavailable st;
     isFetchingCharacterData := isFetchingCharacterData st;
     characterData := characterData st; manifestState := manifestState st;
     draggingCharacterId := draggingCharacterId st;
     characterDisplayOrder := characterDisplayOrder st;
     persistedOrder := persistedOrder st;
     effects := effects st ++ [GaEvent category action label] |}.

(** Modelled from the spec: [setSelectedDestinyMembership] of
    services/bungie-auth.ts, opaque to the controller: the call is
    recorded. *)
Definition setSelectedDestinyMembership (membershipType : Z)
    (st : AppState) : AppState :=
  {| disableManualLogin := disableManualLogin st; isAuthed := isAuthed st;
     hasAuthError := hasAuthError st;
     hasSelectedMembership := hasSelectedMembership st;
     manifestData := manifestData st;
     hasManifestError := hasManifestError st;
     isBungieSystemDisabled := isBungieSystemDisabled st;
     isBungieServiceUnavailable := isBungieServiceUnavailable st;
     isFetchingCharacterData := isFetchingCharacterData st;
     characterData := characterData st; manifestState := manifestState st;
     draggingCharacterId := draggingCharacterId st;
     characterDisplayOrder := characterDisplayOrder st;
     persistedOrder := persistedOrder st;
     effects := effects st ++ [SetSelectedDestinyMembership membershipType] |}.

(** Modelled from the spec: [saveCharacterDisplayOrder] of services/utils.ts,
    durable storage of one sequence of identifiers: the sequence replaces
    what was stored, and the call is recorded. *)
Definition saveCharacterDisplayOrder (order : list string)
    (st : AppState) : AppState :=
  {| disableManualLogin := disableManualLogin st; isAuthed := isAuthed st;
     hasAuthError := hasAuthError st;
     hasSelectedMembership := hasSelectedMembership st;
     manifestData := manifestData st;
     hasManifestError := hasManifestError st;
     isBungieSystemDisabled := isBungieSystemDisabled st;
     isBungieServiceUnavailable := isBungieServiceUnavailable st;
     isFetchingCharacterData := isFetchingCharacterData st;
     characterData := characterData st; manifestState := manifestState st;
     draggingCharacterId := draggingCharacterId st;
     characterDisplayOrder := characterDisplayOrder st;
     persistedOrder := Some order;
     effects := effects st ++ [SaveCharacterDisplayOrder order] |}.

(** The state [App] starts in: the arguments of its [useState] calls.
    [hasManuallyAuthed], [hasValidAuth] and [hasSelectedDestinyMembership]
    are answers of the auth service, [stored] is what
    [loadCharacterDisplayOrder] finds. *)
Definition initialState
    (hasManuallyAuthed hasValidAuth hasSelectedDestinyMembership : bool)
    (stored : option (list string)) : AppState :=
  {| disableManualLogin := hasManuallyAuthed; isAuthed := hasValidAuth;
     hasAuthError := false;
     hasSelectedMembership := hasSelectedDestinyMembership;
     manifestData := None; hasManifestError := false;
     isBungieSystemDisabled := false; isBungieServiceUnavailable := false;
     isFetchingCharacterData := false; characterData := None;
     manifestState := "Unknown"; draggingCharacterId := None;
     characterDisplayOrder := stored; persistedOrder := stored;
     effects := [] |}.

(** ** Refresh controller *)

(** [doAuth], from the point where [auth()] settles. *)
Definition doAuth (authResult : Settled bool) (st : AppState) : AppState :=
  match authResult with
  | Fulfilled true => setAuthError false (setIsAuthed true st)
  | Fulfilled false => setAuthError true (setIsAuthed false st)
  | Rejected _ => setAuthError true (setIsAuthed false st)
  end.

(** [doGetManifest], from the point where [getManifest()] settles. *)
Definition doGetManifest (manifestResult : Settled ManifestResult)
    (st : AppState) : AppState :=
  match manifestResult with
  | Fulfilled (ManifestError error) =>
      let st := setManifestError true st in
      let st := if isBungieSystemDisabledError error
                then setBungieSystemDisabled true st else st in
      if String.eqb (message error) "503"
      then setBungieServiceUnavailable true st else st
  | Fulfilled (ManifestOk manifest) => setManifestData manifest st
  | Rejected _ => setManifestError true st
  end.

(** The locals of [updateCharacterData]. *)
Definition newOverallPower (newData : list PowerBarsCharacterData)
  : JS.number :=
  JS.Math_max (map (fun c => JS.Num (overallPower c)) newData).

Definition newArtifactPower (newData : list PowerBarsCharacterData)
  : JS.number :=
  JS.Math_max
    (map (fun c => JS.Num match artifactData c with
                          | Some a => bonusPower a
                          | None => 0%Z
                          end) newData).

Definition newTotalPower (newData : list PowerBarsCharacterData)
  : JS.number :=
  JS.add (newOverallPower newData) (newArtifactPower newData).

Definition updateCharacterData (newData : list PowerBarsCharacterData)
    (st : AppState) : AppState :=
  let st :=
    ga_set {| dimension1 := JS.toString (newOverallPower newData);
              dimension2 := JS.toString (newArtifactPower newData);
              dimension3 := JS.toString (newTotalPower newData) |} st in
  setCharacterData newData st.

(** [doGetCharacterData] in three pieces: up to the [await], one callback
    of [getCharacterData], and the [catch] block. *)
Definition doGetCharacterData_start (isFetchingCharacterData : bool)
    (st : AppState) : AppState :=
  if negb isFetchingCharacterData
  then setIsFetchingCharacterData true st else st.

Definition runCallback (cb : FetchCallback) (st : AppState) : AppState :=
  match cb with
  | OnData newData => updateCharacterData newData st
  | OnFetchingChange value => setIsFetchingCharacterData value st
  end.

Definition doGetCharacterData_catch (error : JsError) (st : AppState)
  : AppState :=
  let st := if isBungieSystemDisabledError error
            then setBungieSystemDisabled true st else st in
  if String.eqb (message error) "503"
  then setBungieServiceUnavailable true st else st.

(** The whole of [doGetCharacterData] for one run of [getCharacterData],
    which makes the calls [callbacks] and then settles. *)
Definition doGetCharacterData (isFetchingCharacterData : bool)
    (callbacks : list FetchCallback) (outcome : Settled unit)
    (st : AppState) : AppState :=
  if negb isFetchingCharacterData then
    let st := doGetCharacterData_start isFetchingCharacterData st in
    let st := fold_left (fun s cb => runCallback cb s) callbacks st in
    match outcome with
    | Fulfilled _ => st
    | Rejected error => doGetCharacterData_catch error st
    end
  else st.

(** The [useEvent] handlers.  The handler of [MANIFEST_FETCH_ERROR] calls
    [doGetManifest.current], which starts a fetch and changes no state
    until that fetch settles. *)
Definition onEvent (e : EVENTS) (st : AppState) : AppState :=
  match e with
  | GET_MANIFEST =>
      setManifestState "Checking manifest version"
        (setManifestError false st)
  | LOAD_MANIFEST_DATA => setManifestState "Loading manifest data" st
  | FETCH_MANIFEST_DATA =>
      setManifestState "Fetching manifest data from Bungie" st
  | PARSE_MANIFEST_DATA => setManifestState "Processing manifest data" st
  | STORE_MANIFEST_DATA => setManifestState "Saving manifest data" st
  | MANIFEST_DATA_READY =>
      setManifestState "Manifest ready" (setManifestError false st)
  | MANIFEST_FETCH_ERROR => st
  | LOG_OUT => setDisableManualLogin false (setIsAuthed false st)
  end.

Definition hasManifestData (st : AppState) : bool :=
  String.eqb (manifestState st) "Manifest ready".

Definition onSelectMembership (membershipType : Z) (st : AppState)
  : AppState :=
  let st := ga_event "Platform" "Select platform"
              ("Membership type: " +:+ pretty membershipType) st in
  let st := setSelectedDestinyMembership membershipType st in
  setHasMembership true st.

(** The [status] variable after the chain of [if]s; it starts as the
    empty string. *)
Definition status (st : AppState) : Status :=
  if isBungieSystemDisabled st then BungieApiDisabled
  else if isBungieServiceUnavailable st then BungieApiUnavailable
  else if hasAuthError st then AuthenticationRequired
  else if hasManifestError st then ManifestFetchFailed
  else if negb (isAuthed st) then StatusText "Authenticating..."
  else if negb (hasSelectedMembership st)
    then StatusText "Waiting for Destiny platform selection..."
  else if negb (hasManifestData st) then StatusText (manifestState st)
  else if match characterData st with
          | None => true
          | Some cd => (length cd =? 0)%nat
          end
    then if isFetchingCharacterData st
         then StatusText "Fetching character data..."
         else StatusText "No character data"
  else StatusText "".

(** ** Display-order reconciler *)

(** The identifiers of a snapshot set, in arrival order. *)
Definition characterIdsOf (cd : list PowerBarsCharacterData) : list string :=
  map (fun c => characterId (character c)) cd.

Definition getDefaultCharacterDisplayOrder (st : AppState) : list string :=
  match characterData st with
  | Some cd => characterIdsOf cd
  | None => []
  end.

(** [isValidCharacterDisplayOrder]; it is only used as a condition, so the
    [undefined] it yields without character data is [false] here. *)
Definition isValidCharacterDisplayOrder (st : AppState)
    (ids : list string) : bool :=
  match characterData st with
  | None => false
  | Some cd =>
      (length cd =? length ids)%nat
      && JS.every
           (fun id =>
              JS.some (fun c => String.eqb (characterId (character c)) id)
                cd) ids
      && JS.every (fun c => JS.includes ids (characterId (character c))) cd
  end.

(** The local [currentCharacterOrder] of [dropOnCharacterId]: the custom
    order when there is a non-empty one, the default order otherwise. *)
Definition currentCharacterOrder (st : AppState) : list string :=
  match characterDisplayOrder st with
  | Some order =>
      if (0 <? length order)%nat then order
      else getDefaultCharacterDisplayOrder st
  | None => getDefaultCharacterDisplayOrder st
  end.

(** [dropOnCharacterId].  The guard [!draggingCharacterId ||
    draggingCharacterId === dropCharacterId] is the first case and the
    condition of the second: [undefined] and the empty string are falsy.
    [slice()] copies the array, so the two [indexOf] calls look at the
    order as it was while the two [splice] calls change the copy. *)
Definition dropOnCharacterId (dropCharacterId : string) (st : AppState)
  : AppState :=
  match draggingCharacterId st with
  | None => st
  | Some dragging =>
      if String.eqb dragging "" || String.eqb dragging dropCharacterId
      then st
      else
        let swappedOrder := currentCharacterOrder st in
        let swappedOrder :=
          JS.splice swappedOrder
            (JS.indexOf (currentCharacterOrder st) dragging) 1
            [dropCharacterId] in
        let swappedOrder :=
          JS.splice swappedOrder
            (JS.indexOf (currentCharacterOrder st) dropCharacterId) 1
            [dragging] in
        setCharacterDisplayOrder (Some swappedOrder)
          (saveCharacterDisplayOrder swappedOrder st)
  end.

(** The part of the body of [App] that chooses the displayed order: the
    order handed to the cards, and the state once the
    [setCharacterDisplayOrder(undefined)] of the failing branch has taken
    effect. *)
Definition App (st : AppState) : list string * AppState :=
  let useCharacterOrder := getDefaultCharacterDisplayOrder st in
  match characterData st, characterDisplayOrder st with
  | Some cd, Some order =>
      if (0 <? length cd)%nat && (0 <? length order)%nat then
        if isValidCharacterDisplayOrder st order
        then (order, st)
        else (useCharacterOrder, setCharacterDisplayOrder None st)
      else (useCharacterOrder, st)
  | _, _ => (useCharacterOrder, st)
  end.

Definition useCharacterOrder (st : AppState) : list string := fst (App st).

(** The drag handlers given to every [CharacterDisplay]. *)
Definition onDragStart (characterId : string) (st : AppState) : AppState :=
  setDraggingCharacterId (Some characterId) st.

Definition onDragEnd (st : AppState) : AppState :=
  setDraggingCharacterId None st.

Definition onDragDrop (characterId : string) (st : AppState) : AppState :=
  dropOnCharacterId characterId st.

(** ** Executions *)

(** What can happen to a mounted [App]: a promise it awaits settles, a
    callback or an event handler runs, the user acts, or it renders. *)
Inductive Op : Type :=
| AuthSettled (authResult : Settled bool)
| ManifestSettled (manifestResult : Settled ManifestResult)
| FetchStarted
| FetchCalledBack (cb : FetchCallback)
| FetchRejected (error : JsError)
| Emitted (e : EVENTS)
| MembershipSelected (membershipType : Z)
| DragStarted (characterId : string)
| DragEnded
| Dropped (characterId : string)
| Rendered.

Definition step (op : Op) (st : AppState) : AppState :=
  match op with
  | AuthSettled authResult => doAuth authResult st
  | ManifestSettled manifestResult => doGetManifest manifestResult st
  | FetchStarted =>
      doGetCharacterData_start (isFetchingCharacterData st) st
  | FetchCalledBack cb => runCallback cb st
  | FetchRejected error => doGetCharacterData_catch error st
  | Emitted e => onEvent e st
  | MembershipSelected membershipType =>
      onSelectMembership membershipType st
  | DragStarted characterId => onDragStart characterId st
  | DragEnded => onDragEnd st
  | Dropped characterId => onDragDrop characterId st
  | Rendered => snd (App st)
  end.

Definition run (ops : list Op) (st : AppState) : AppState :=
  fold_left (fun s op => step op s) ops st.

(** ** The vocabulary of the specification *)

(** The identifier set of a snapshot set. *)
Definition idSet (cd : list PowerBarsCharacterData) : gset string :=
  list_to_set (characterIdsOf cd).

(** The conditions of the specification's precedence list, highest
    first. *)
Inductive StatusCondition : Set :=
| SystemDisabled
| ServiceUnavailable
| AuthError
| ManifestFetchError
| NotAuthed
| NoMembershipSelected
| ManifestNotReady
| NoData
| Empty.

Definition precedence : list StatusCondition :=
  [SystemDisabled; ServiceUnavailable; AuthError; ManifestFetchError;
   NotAuthed; NoMembershipSelected; ManifestNotReady; NoData; Empty].

(** When a condition holds of a state ... *)
Definition holds (c : StatusCondition) (st : AppState) : bool :=
  match c with
  | SystemDisabled => isBungieSystemDisabled st
  | ServiceUnavailable => isBungieServiceUnavailable st
  | AuthError => hasAuthError st
  | ManifestFetchError => hasManifestError st
  | NotAuthed => negb (isAuthed st)
  | NoMembershipSelected => negb (hasSelectedMembership st)
  | ManifestNotReady => negb (hasManifestData st)
  | NoData =>
      match characterData st with
      | None => true
      | Some cd => bool_decide (cd = [])
      end
  | Empty => true
  end.

(** ... and what is displayed for it. *)
Definition displayed (c : StatusCondition) (st : AppState) : Status :=
  match c with
  | SystemDisabled => BungieApiDisabled
  | ServiceUnavailable => BungieApiUnavailable
  | AuthError => AuthenticationRequired
  | ManifestFetchError => ManifestFetchFailed
  | NotAuthed => StatusText "Authenticating..."
  | NoMembershipSelected =>
      StatusText "Waiting for Destiny platform selection..."
  | ManifestNotReady => StatusText (manifestState st)
  | NoData =>
      if isFetchingCharacterData st
      then StatusText "Fetching character data..."
      else StatusText "No character data"
  | Empty => StatusText ""
  end.

(** The status of the specification: what is displayed for the first
    condition of the list that holds. *)
Definition statusByPrecedence (st : AppState) : Status :=
  match List.find (fun c => holds c st) precedence with
  | Some c => displayed c st
  | None => StatusText ""
  end.

(** The artifact bonus power of a snapshot, a missing artifact counting
    as 0. *)
Definition artifactBonusPower (c : PowerBarsCharacterData) : Z :=
  match artifactData c with
  | Some a => bonusPower a
  | None => 0%Z
  end.

(** [v] is the maximum of [zs]: one of them, and at least each of them;
    of no number at all it is [-Infinity]. *)
Definition isMaximumOf (zs : list Z) (v : JS.number) : Prop :=
  match zs with
  | [] => v = JS.NegInfinity
  | _ :: _ => ∃ m, v = JS.Num m ∧ m ∈ zs ∧ ∀ z, z ∈ zs → (z ≤ m)%Z
  end.

(** The two events whose handlers call [setManifestError(false)]. *)
Definition clearsManifestError (e : EVENTS) : bool :=
  match e with
  | GET_MANIFEST | MANIFEST_DATA_READY => true
  | _ => false
  end.

(** ** Polling and the rendered view *)

(** The condition under which the [useInterval] callback fetches. *)
Definition intervalFetches (st : AppState) : bool :=
  isAuthed st && hasSelectedMembership st
  && negb (isFetchingCharacterData st).

(** The condition under which the second [useEffect] fetches;
    [!characterData] holds of [undefined] only, an empty array is truthy. *)
Definition effectFetches (st : AppState) : bool :=
  match characterData st with
  | None => true
  | Some _ => false
  end
  && negb (isFetchingCharacterData st)
  && negb (isBungieSystemDisabled st).

(** The condition under which the first [useEffect] calls [doAuth]. *)
Definition effectAuths (st : AppState) : bool := negb (isAuthed st).

(** Truthiness of [status]: an element is truthy, a string unless empty. *)
Definition statusTruthy (s : Status) : bool :=
  match s with
  | StatusText s => negb (String.eqb s "")
  | _ => true
  end.

(** What [App] returns: the character cards, with the status spinner when
    [status] is truthy and the fetch spinner while fetching; the login
    prompt; or the status alone.  A card is what [characterData.find]
    yields for an identifier of the displayed order. *)
Inductive View : Type :=
| CharactersView (cards : list (option PowerBarsCharacterData))
    (loadingSpinner : option Status) (fetchSpinner : bool)
| LoginPromptView
| LoadingView (status : Status).

Definition cards (cd : list PowerBarsCharacterData) (order : list string)
  : list (option PowerBarsCharacterData) :=
  map (fun id =>
         JS.find (fun c => String.eqb (characterId (character c)) id) cd)
    order.

Definition view (st : AppState) : View :=
  if isAuthed st
     && match characterData st with
        | Some cd => (0 <? length cd)%nat
        | None => false
        end
  then
    CharactersView
      (cards (default [] (characterData st)) (useCharacterOrder st))
      (if statusTruthy (status st) then Some (status st) else None)
      (isFetchingCharacterData st)
  else if hasAuthError st && negb (disableManualLogin st)
  then LoginPromptView
  else LoadingView (status st).

(** What one callback of [getCharacterData] makes the controller call,
    and what it delivers. *)
Definition callbackEffects (cb : FetchCallback) : list Effect :=
  match cb with
  | OnData newData =>
      [GaSet {| dimension1 := JS.toString (newOverallPower newData);
                dimension2 := JS.toString (newArtifactPower newData);
                dimension3 := JS.toString (newTotalPower newData) |};
       SetCharacterData newData]
  | OnFetchingChange _ => []
  end.

Definition deliveredData (cb : FetchCallback)
  : option (list PowerBarsCharacterData) :=
  match cb with
  | OnData newData => Some newData
  | OnFetchingChange _ => None
  end.

Definition fetchingChange (cb : FetchCallback) : option bool :=
  match cb with
  | OnData _ => None
  | OnFetchingChange value => Some value
  end.

(** The text a manifest progress event puts into [manifestState]. *)
Definition stageText (e : EVENTS) : option string :=
  match e with
  | GET_MANIFEST => Some "Checking manifest version"
  | LOAD_MANIFEST_DATA => Some "Loading manifest data"
  | FETCH_MANIFEST_DATA => Some "Fetching manifest data from Bungie"
  | PARSE_MANIFEST_DATA => Some "Processing manifest data"
  | STORE_MANIFEST_DATA => Some "Saving manifest data"
  | MANIFEST_DATA_READY => Some "Manifest ready"
  | MANIFEST_FETCH_ERROR | LOG_OUT => None
  end.

(** The text of the last progress event of an execution, if it has one. *)
Fixpoint lastStage (ops : list Op) : option string :=
  match ops with
  | [] => None
  | op :: ops' =>
      match lastStage ops' with
      | Some text => Some text
      | None =>
          match op with
          | Emitted e => stageText e
          | _ => None
          end
      end
  end.

End Controller.

(** ** Concrete states *)

Module Scenario.

Definition snapshot (id : string) (power : Z) : PowerBarsCharacterData :=
  {| character := {| characterId := id |}; overallPower := power;
     artifactData := None |}.

(** Authenticated, a platform selected, nothing stored, nothing fetched. *)
Definition started : @AppState unit := initialState false true true None.

(** The snapshot set with identifiers "A" and "B" has arrived. *)
Definition loaded : @AppState unit :=
  updateCharacterData [snapshot "A" 750; snapshot "B" 760] started.

(** The same with a custom order, as [setCharacterDisplayOrder] leaves
    it. *)
Definition ordered (order : list string) : @AppState unit :=
  setCharacterDisplayOrder (Some order) loaded.

Definition systemDisabledError : JsError :=
  {| isBungieSystemDisabledError := true; message := "SystemDisabled" |}.

Definition otherError : JsError :=
  {| isBungieSystemDisabledError := false; message := "500" |}.

(** A character-data fetch failed with a [BungieSystemDisabledError]
    whose message is "503" ... *)
Definition failed : @AppState unit :=
  doGetCharacterData_catch
    {| isBungieSystemDisabledError := true; message := "503" |} started.

(** ... and then a manifest fetch went through its stages and succeeded. *)
Definition recovered : @AppState unit :=
  run [Emitted GET_MANIFEST; Emitted LOAD_MANIFEST_DATA;
       Emitted MANIFEST_DATA_READY;
       ManifestSettled (Fulfilled (ManifestOk tt))] failed.

(** A custom order was stored by an earlier session, and the snapshot
    set with identifiers "A" and "B" has arrived. *)
Definition restored (stored : list string) : @AppState unit :=
  updateCharacterData [snapshot "A" 750; snapshot "B" 760]
    (initialState false true true (Some stored)).


End Scenario.

Import Scenario.

(** ** Facts about the JavaScript primitives *)

Module JSFacts.
Import JS.

(** [indexOf] finds the first position of an element that occurs. *)
Lemma indexOf_from_elem xs x i :
  x ∈ xs →
  ∃ n : nat, indexOf_from xs x i = (i + Z.of_nat n)%Z
             ∧ xs !! n = Some x
             ∧ ∀ m, (m < n)%nat → xs !! m ≠ Some x.
Proof.
  revert i. induction xs as [|y xs IH]; intros i Hin.
  - by apply elem_of_nil in Hin.
  - simpl. destruct (String.eqb y x) eqn:E.
    + apply String.eqb_eq in E as ->. exists 0%nat.
      split; [lia | split; [done | intros m Hm; lia]].
    + apply String.eqb_neq in E.
      apply elem_of_cons in Hin as [-> | Hin]; [done |].
      destruct (IH (i + 1)%Z Hin) as (n & Hn & Hl & Hfirst).
      exists (S n). split; [lia | split; [done |]].
      intros [|m] Hm; simpl; [congruence | apply Hfirst; lia].
Qed.

Lemma indexOf_elem xs x :
  x ∈ xs →
  ∃ n : nat, indexOf xs x = Z.of_nat n ∧ xs !! n = Some x
             ∧ ∀ m, (m < n)%nat → xs !! m ≠ Some x.
Proof.
  intros Hin. destruct (indexOf_from_elem xs x 0 Hin) as (n & Hn & H).
  exists n. split; [exact Hn | exact H].
Qed.

(** ... and answers -1 for one that does not. *)
Lemma indexOf_from_not_elem xs x i : x ∉ xs → indexOf_from xs x i = (-1)%Z.
Proof.
  revert i. induction xs as [|y xs IH]; intros i Hnin; simpl; [done |].
  apply not_elem_of_cons in Hnin as [Hne Hnin].
  destruct (String.eqb y x) eqn:E; [| by apply IH].
  apply String.eqb_eq in E. congruence.
Qed.

Lemma indexOf_not_elem xs x : x ∉ xs → indexOf xs x = (-1)%Z.
Proof. apply indexOf_from_not_elem. Qed.

(** Inside the array, [splice(i, 1, x)] overwrites position [i]. *)
Lemma splice_one_insert {A} (xs : list A) (i : nat) (x : A) :
  (i < length xs)%nat → splice xs (Z.of_nat i) 1 [x] = <[i:=x]> xs.
Proof.
  intros Hi. unfold splice.
  destruct (Z.ltb_spec (Z.of_nat i) 0) as [Hneg | _]; [lia |].
  rewrite Z.min_l by lia.
  replace (Z.min (Z.max 1 0) (Z.of_nat (length xs) - Z.of_nat i)) with 1%Z
    by lia.
  rewrite Nat2Z.id.
  replace (Z.to_nat (Z.of_nat i + 1)) with (S i) by lia.
  by rewrite insert_take_drop.
Qed.

(** [includes] and the [some] of an equality test decide membership. *)
Lemma includes_true xs x : includes xs x = true ↔ x ∈ xs.
Proof.
  unfold includes. rewrite existsb_exists. split.
  - intros (y & Hy & E). apply String.eqb_eq in E as ->.
    by apply list_elem_of_In.
  - intros Hin. exists x. split; [by apply list_elem_of_In |].
    apply String.eqb_refl.
Qed.

(** Overwriting two positions with each other's content permutes. *)
Lemma insert_cons_Permutation {A} (l : list A) j d t :
  l !! j = Some t → t :: <[j:=d]> l ≡ₚ d :: l.
Proof.
  revert j. induction l as [|a l IH]; intros [|j] Hj; simplify_eq/=.
  - apply perm_swap.
  - rewrite (perm_swap a t), (IH j Hj). apply perm_swap.
Qed.

Lemma swap_Permutation {A} (l : list A) i j d t :
  i ≠ j → l !! i = Some d → l !! j = Some t →
  <[j:=d]> (<[i:=t]> l) ≡ₚ l.
Proof.
  revert i j. induction l as [|a l IH]; intros [|i] [|j] Hne Hi Hj;
    simplify_eq/=.
  - by apply insert_cons_Permutation.
  - by apply insert_cons_Permutation.
  - f_equiv. apply IH; [congruence | done | done].
Qed.
End JSFacts.

(** ** Properties of the controller *)

Section Properties.
Context {ManifestData : Type}.
Implicit Types (st : @AppState ManifestData).
Implicit Types (cd : list PowerBarsCharacterData).
Implicit Types (order ids : list string).

Lemma length_characterIdsOf cd : length (characterIdsOf cd) = length cd.
Proof. apply length_map. Qed.

Lemma some_characterId_true cd id :
  JS.some (fun c => String.eqb (characterId (character c)) id) cd = true
  ↔ id ∈ characterIdsOf cd.
Proof.
  unfold JS.some, characterIdsOf. rewrite existsb_exists, list_elem_of_fmap.
  split.
  - intros (c & Hc & E). apply String.eqb_eq in E. exists c.
    split; [done | by apply list_elem_of_In].
  - intros (c & -> & Hc). exists c.
    split; [by apply list_elem_of_In | apply String.eqb_refl].
Qed.

(** [isValidCharacterDisplayOrder] unfolded into its three conjuncts. *)
Lemma isValidCharacterDisplayOrder_true st cd order :
  characterData st = Some cd →
  isValidCharacterDisplayOrder st order = true
  ↔ length cd = length order
    ∧ (∀ id, id ∈ order → id ∈ characterIdsOf cd)
    ∧ (∀ id, id ∈ characterIdsOf cd → id ∈ order).
Proof.
  intros Hcd. unfold isValidCharacterDisplayOrder, JS.every. rewrite Hcd.
  rewrite !andb_true_iff, Nat.eqb_eq, !forallb_forall.
  split.
  - intros [[Hlen HO] HS]. split; [exact Hlen | split].
    + intros id Hid. apply some_characterId_true, HO.
      by apply list_elem_of_In.
    + intros id Hid. apply list_elem_of_fmap in Hid as (c & -> & Hc).
      apply JSFacts.includes_true, HS. by apply list_elem_of_In.
  - intros (Hlen & HO & HS). split; [split; [exact Hlen |] |].
    + intros id Hid. apply some_characterId_true, HO.
      by apply list_elem_of_In.
    + intros c Hc. apply JSFacts.includes_true, HS.
      apply list_elem_of_fmap. exists c. split; [done |].
      by apply list_elem_of_In.
Qed.

(** A valid order lists distinct identifiers when the snapshot set does. *)
Lemma valid_order_NoDup st cd order :
  characterData st = Some cd → NoDup (characterIdsOf cd) →
  isValidCharacterDisplayOrder st order = true → NoDup order.
Proof.
  intros Hcd Hnd Hv.
  apply (isValidCharacterDisplayOrder_true st cd order Hcd) in Hv
    as (Hlen & _ & HS).
  apply NoDup_ListNoDup.
  apply (List.NoDup_incl_NoDup (l := characterIdsOf cd)).
  - by apply NoDup_ListNoDup.
  - rewrite length_characterIdsOf. lia.
  - intros id Hid. apply list_elem_of_In, HS. by apply list_elem_of_In.
Qed.

Lemma valid_order_Permutation st cd order :
  characterData st = Some cd → NoDup (characterIdsOf cd) →
  isValidCharacterDisplayOrder st order = true → order ≡ₚ characterIdsOf cd.
Proof.
  intros Hcd Hnd Hv.
  pose proof (valid_order_NoDup st cd order Hcd Hnd Hv) as HndO.
  apply (isValidCharacterDisplayOrder_true st cd order Hcd) in Hv
    as (_ & HO & HS).
  apply NoDup_Permutation; [done | done |].
  intros id. split; [apply HO | apply HS].
Qed.

(** C1.  Against a snapshot set with pairwise distinct identifiers,
    [isValidCharacterDisplayOrder] accepts a sequence exactly when the
    sequence has as many entries as the set has identifiers, every
    entry is an identifier of the set and every identifier of the set is
    an entry; a sequence with a repeated identifier is rejected. *)
Theorem C1_isValidCharacterDisplayOrder_set_equality st cd order :
  characterData st = Some cd →
  NoDup (characterIdsOf cd) →
  (isValidCharacterDisplayOrder st order = true
   ↔ length order = size (idSet cd)
     ∧ (∀ id, id ∈ order → id ∈ idSet cd)
     ∧ (∀ id, id ∈ idSet cd → id ∈ order))
  ∧ (¬ NoDup order → isValidCharacterDisplayOrder st order = false).
Proof.
  intros Hcd Hnd. split.
  - rewrite (isValidCharacterDisplayOrder_true st cd order Hcd).
    unfold idSet. rewrite size_list_to_set by done.
    rewrite length_characterIdsOf.
    setoid_rewrite elem_of_list_to_set. split.
    + intros (Hlen & HO & HS). by split.
    + intros (Hlen & HO & HS). by split.
  - intros Hdup.
    destruct (isValidCharacterDisplayOrder st order) eqn:Hv; [| done].
    destruct Hdup. by apply (valid_order_NoDup st cd order).
Qed.

(** What [dropOnCharacterId] does once its guard is passed. *)
Lemma dropOnCharacterId_passed st dragging target :
  draggingCharacterId st = Some dragging →
  dragging ≠ "" → dragging ≠ target →
  dropOnCharacterId target st
  = let swapped :=
      JS.splice
        (JS.splice (currentCharacterOrder st)
           (JS.indexOf (currentCharacterOrder st) dragging) 1 [target])
        (JS.indexOf (currentCharacterOrder st) target) 1 [dragging] in
    setCharacterDisplayOrder (Some swapped)
      (saveCharacterDisplayOrder swapped st).
Proof.
  intros Hd Hne Hdt. unfold dropOnCharacterId. rewrite Hd.
  apply String.eqb_neq in Hne, Hdt. by rewrite Hne, Hdt.
Qed.

(** C2, as amended.  When a drag is in progress, the target differs from
    the dragged identifier and both occur in the current order,
    [dropOnCharacterId] exchanges the two: the position that held the
    dragged identifier holds the target, the position that held the
    target holds the dragged identifier, every other position is
    unchanged, the new order is a permutation of the old one, and it is
    saved and becomes the custom order. *)
Theorem C2_dropOnCharacterId_swaps st dragging target :
  draggingCharacterId st = Some dragging →
  dragging ≠ "" → dragging ≠ target →
  dragging ∈ currentCharacterOrder st →
  target ∈ currentCharacterOrder st →
  ∃ (i j : nat) (swapped : list string),
    JS.indexOf (currentCharacterOrder st) dragging = Z.of_nat i
    ∧ JS.indexOf (currentCharacterOrder st) target = Z.of_nat j
    ∧ currentCharacterOrder st !! i = Some dragging
    ∧ currentCharacterOrder st !! j = Some target
    ∧ swapped !! i = Some target
    ∧ swapped !! j = Some dragging
    ∧ (∀ k, k ≠ i → k ≠ j → swapped !! k = currentCharacterOrder st !! k)
    ∧ swapped ≡ₚ currentCharacterOrder st
    ∧ characterDisplayOrder (dropOnCharacterId target st) = Some swapped
    ∧ persistedOrder (dropOnCharacterId target st) = Some swapped
    ∧ effects (dropOnCharacterId target st)
      = effects st ++ [SaveCharacterDisplayOrder swapped].
Proof.
  intros Hd Hne Hdt Hin_d Hin_t.
  rewrite (dropOnCharacterId_passed st dragging target Hd Hne Hdt).
  set (cur := currentCharacterOrder st) in *.
  destruct (JSFacts.indexOf_elem cur dragging Hin_d) as (i & Hi & Hli & _).
  destruct (JSFacts.indexOf_elem cur target Hin_t) as (j & Hj & Hlj & _).
  assert (Hij : i ≠ j) by (intros ->; congruence).
  pose proof (lookup_lt_Some _ _ _ Hli) as Hilt.
  pose proof (lookup_lt_Some _ _ _ Hlj) as Hjlt.
  exists i, j, (<[j:=dragging]> (<[i:=target]> cur)).
  rewrite Hi, Hj.
  rewrite (JSFacts.splice_one_insert cur i target Hilt).
  rewrite (JSFacts.splice_one_insert _ j dragging)
    by (by rewrite length_insert).
  repeat split; try done.
  - rewrite list_lookup_insert_ne by done.
    by apply list_lookup_insert_eq.
  - apply list_lookup_insert_eq. by rewrite length_insert.
  - intros k Hki Hkj. by rewrite !list_lookup_insert_ne.
  - by apply JSFacts.swap_Permutation.
Qed.

(** The condition under which the body of [App] looks at the custom
    order at all. *)
Lemma App_checked st cd order :
  characterData st = Some cd → cd ≠ [] →
  characterDisplayOrder st = Some order → order ≠ [] →
  App st
  = if isValidCharacterDisplayOrder st order then (order, st)
    else (characterIdsOf cd, setCharacterDisplayOrder None st).
Proof.
  intros Hcd Hne Hord Hone. unfold App, getDefaultCharacterDisplayOrder.
  rewrite Hcd, Hord.
  destruct cd; [done |]. destruct order; [done |]. done.
Qed.

(** Whatever the state, the displayed order is the custom order, and then
    a valid one, or the default order. *)
Lemma useCharacterOrder_cases st :
  (∃ order, characterDisplayOrder st = Some order
            ∧ isValidCharacterDisplayOrder st order = true
            ∧ useCharacterOrder st = order)
  ∨ useCharacterOrder st = getDefaultCharacterDisplayOrder st.
Proof.
  unfold useCharacterOrder, App.
  destruct (characterData st) as [cd|]; [| by right].
  destruct (characterDisplayOrder st) as [order|]; [| by right].
  destruct ((0 <? length cd)%nat && (0 <? length order)%nat); [| by right].
  destruct (isValidCharacterDisplayOrder st order) eqn:Hv; [| by right].
  left. by exists order.
Qed.


(** The body of [App] never touches the persisted order: clearing a
    stale custom order changes the state variable only. *)
Lemma App_keeps_persistedOrder st :
  persistedOrder (snd (App st)) = persistedOrder st
  ∧ effects (snd (App st)) = effects st.
Proof.
  unfold App.
  destruct (characterData st) as [cd|]; [| done].
  destruct (characterDisplayOrder st) as [order|]; [| done].
  destruct ((0 <? length cd)%nat && (0 <? length order)%nat); [| done].
  by destruct (isValidCharacterDisplayOrder st order).
Qed.

(** *** Status precedence *)

Lemma status_statusByPrecedence st : status st = statusByPrecedence st.
Proof.
  unfold status, statusByPrecedence, precedence. simpl.
  destruct (isBungieSystemDisabled st); [done |].
  destruct (isBungieServiceUnavailable st); [done |].
  destruct (hasAuthError st); [done |].
  destruct (hasManifestError st); [done |].
  destruct (isAuthed st); [| done].
  destruct (hasSelectedMembership st); [| done].
  destruct (hasManifestData st); [| done]. simpl.
  destruct (characterData st) as [[|c cd]|]; done.
Qed.

Lemma find_first {A} (f : A → bool) (before : list A) x after :
  (∀ y, y ∈ before → f y = false) → f x = true →
  List.find f (before ++ x :: after) = Some x.
Proof.
  intros Hbefore Hx. induction before as [|y before IH]; simpl.
  - by rewrite Hx.
  - rewrite (Hbefore y) by apply list_elem_of_here.
    apply IH. intros z Hz. apply Hbefore. by apply list_elem_of_further.
Qed.

(** C4.  [status] is a function of the state flags, and it is what the
    precedence list system-disabled, service-unavailable, auth-error,
    manifest-error, not-authed, no-membership-selected,
    manifest-not-ready, no-data, empty yields: the status displayed is that
    of the first condition of the list that holds, so a condition wins
    over every condition after it.  In particular the system-disabled
    message is displayed whenever the system-disabled flag is set,
    whatever the other flags. *)
Theorem C4_status_precedence st :
  status st = statusByPrecedence st
  ∧ (∀ before c after,
        precedence = before ++ c :: after →
        (∀ c', c' ∈ before → holds c' st = false) →
        holds c st = true →
        status st = displayed c st)
  ∧ (isBungieSystemDisabled st = true → status st = BungieApiDisabled).
Proof.
  split; [apply status_statusByPrecedence | split].
  - intros before c after Hp Hbefore Hc.
    rewrite status_statusByPrecedence. unfold statusByPrecedence.
    by rewrite Hp, (find_first _ before c after Hbefore Hc).
  - intros Hd. unfold status. by rewrite Hd.
Qed.

(** *** Aggregate metrics *)

Lemma fold_left_max2_Num (zs : list Z) (m : Z) :
  ∃ m', fold_left JS.max2 (map JS.Num zs) (JS.Num m) = JS.Num m'
        ∧ (m' = m ∨ m' ∈ zs) ∧ (m ≤ m')%Z ∧ ∀ z, z ∈ zs → (z ≤ m')%Z.
Proof.
  revert m. induction zs as [|z zs IH]; intros m; simpl.
  - exists m. split; [done | split; [by left | split; [lia |]]].
    intros z Hz. by apply elem_of_nil in Hz.
  - destruct (IH (Z.max m z)) as (m' & Hm' & Hin & Hle & Hall).
    exists m'. split; [done | split; [| split; [lia |]]].
    + destruct Hin as [-> | Hin].
      * destruct (Z.max_spec m z) as [[_ ->] | [_ ->]];
          [right; apply list_elem_of_here | by left].
      * right. by apply list_elem_of_further.
    + intros z' Hz'. apply elem_of_cons in Hz' as [-> | Hz'];
        [lia | by apply Hall].
Qed.

Lemma Math_max_isMaximumOf (zs : list Z) :
  isMaximumOf zs (JS.Math_max (map JS.Num zs)).
Proof.
  destruct zs as [|z zs]; [done |].
  unfold isMaximumOf, JS.Math_max. simpl.
  destruct (fold_left_max2_Num zs z) as (m' & Hm' & Hin & Hle & Hall).
  exists m'. split; [done | split].
  - destruct Hin as [-> | Hin];
      [apply list_elem_of_here | by apply list_elem_of_further].
  - intros z' Hz'. apply elem_of_cons in Hz' as [-> | Hz'];
      [done | by apply Hall].
Qed.

(** The maximum of safe integers is one of them. *)
Lemma isMaximumOf_safe (zs : list Z) (v : JS.number) :
  (∀ z, z ∈ zs → JS.isSafeInteger z) → isMaximumOf zs v →
  match v with
  | JS.NegInfinity => zs = []
  | JS.Num m => m ∈ zs ∧ JS.isSafeInteger m
  end.
Proof.
  intros Hsafe Hmax. destruct zs as [|z zs]; simpl in Hmax.
  - by rewrite Hmax.
  - destruct Hmax as (m & -> & Hin & _). split; [done | by apply Hsafe].
Qed.

(** C5.  On a snapshot set whose overall powers and artifact bonus powers
    are safe integers, with safe sums, [updateCharacterData] computes the
    maximum of the overall powers, the maximum of the artifact bonus
    powers with a missing artifact counted as 0, and their sum, which are
    safe integers again (all three are [-Infinity] on the empty set); it
    hands the three, as their decimal digits, to [ga.set] and only then
    publishes the snapshot set.  On the snapshots with powers 700 and 720
    and artifact bonuses 50 and 40 the three values are 720, 50 and
    770. *)
Theorem C5_updateCharacterData_metrics st newData :
  (∀ c, c ∈ newData →
        JS.isSafeInteger (overallPower c)
        ∧ JS.isSafeInteger (artifactBonusPower c)) →
  (∀ c c', c ∈ newData → c' ∈ newData →
           JS.isSafeInteger (overallPower c + artifactBonusPower c')) →
  isMaximumOf (map overallPower newData) (newOverallPower newData)
  ∧ isMaximumOf (map artifactBonusPower newData) (newArtifactPower newData)
  ∧ newTotalPower newData
    = JS.add (newOverallPower newData) (newArtifactPower newData)
  ∧ match newData with
    | [] =>
        newOverallPower newData = JS.NegInfinity
        ∧ newArtifactPower newData = JS.NegInfinity
        ∧ newTotalPower newData = JS.NegInfinity
    | _ :: _ =>
        ∃ overall artifact : Z,
          newOverallPower newData = JS.Num overall
          ∧ newArtifactPower newData = JS.Num artifact
          ∧ newTotalPower newData = JS.Num (overall + artifact)
          ∧ JS.isSafeInteger overall
          ∧ JS.isSafeInteger artifact
          ∧ JS.isSafeInteger (overall + artifact)
          ∧ effects (updateCharacterData newData st)
            = effects st
              ++ [GaSet {| dimension1 := pretty overall;
                           dimension2 := pretty artifact;
                           dimension3 := pretty (overall + artifact)%Z |};
                  SetCharacterData newData]
    end
  ∧ effects (updateCharacterData newData st)
    = effects st
      ++ [GaSet {| dimension1 := JS.toString (newOverallPower newData);
                   dimension2 := JS.toString (newArtifactPower newData);
                   dimension3 := JS.toString (newTotalPower newData) |};
          SetCharacterData newData]
  ∧ characterData (updateCharacterData newData st) = Some newData
  ∧ let example :=
      [ {| character := {| characterId := "1" |}; overallPower := 700;
           artifactData := Some {| bonusPower := 50 |} |};
        {| character := {| characterId := "2" |}; overallPower := 720;
           artifactData := Some {| bonusPower := 40 |} |} ] in
    newOverallPower example = JS.Num 720
    ∧ newArtifactPower example = JS.Num 50
    ∧ newTotalPower example = JS.Num 770
    ∧ effects (updateCharacterData example st)
      = effects st
        ++ [GaSet {| dimension1 := "720"; dimension2 := "50";
                     dimension3 := "770" |};
            SetCharacterData example].
Proof.
  intros Hsafe Hsum.
  assert (isMaximumOf (map overallPower newData) (newOverallPower newData))
    as Hoverall.
  { pose proof (Math_max_isMaximumOf (map overallPower newData)) as H.
    rewrite map_map in H. exact H. }
  assert (isMaximumOf (map artifactBonusPower newData)
            (newArtifactPower newData)) as Hartifact.
  { pose proof (Math_max_isMaximumOf (map artifactBonusPower newData)) as H.
    rewrite map_map in H. exact H. }
  assert (effects (updateCharacterData newData st)
          = effects st
            ++ [GaSet {| dimension1 := JS.toString (newOverallPower newData);
                         dimension2 := JS.toString (newArtifactPower newData);
                         dimension3 := JS.toString (newTotalPower newData) |};
                SetCharacterData newData]) as Heffects.
  { unfold updateCharacterData. simpl. by rewrite <- app_assoc. }
  split_and!; try done.
  - destruct newData as [|c newData]; [done |].
    destruct Hoverall as (overall & Ho & Hino & _).
    destruct Hartifact as (artifact & Ha & Hina & _).
    apply list_elem_of_fmap in Hino as (co & -> & Hco).
    apply list_elem_of_fmap in Hina as (ca & -> & Hca).
    exists (overallPower co), (artifactBonusPower ca).
    unfold newTotalPower. rewrite Heffects.
    unfold newTotalPower. rewrite Ho, Ha. simpl.
    split_and!; try done.
    + by apply Hsafe.
    + by apply Hsafe.
    + by apply Hsum.
  - intros example. repeat split; try done.
    unfold updateCharacterData. simpl. by rewrite <- app_assoc.
Qed.

(** *** Sticky error flags *)

(** C6, as amended.  When the fetch returns an error, [doGetManifest]
    sets the manifest-error flag, turns the system-disabled flag on
    exactly when the error is a [BungieSystemDisabledError] and the
    service-unavailable flag on exactly when the message is "503" (either
    flag stays as it was otherwise), and stores no manifest data.  When
    the fetch succeeds it stores the manifest data and changes no error
    flag: the manifest-error flag is cleared by the handlers of the
    [GET_MANIFEST] and [MANIFEST_DATA_READY] events, and no other event
    changes it. *)
Theorem C6_doGetManifest_outcomes st :
  (∀ error,
      let st' := doGetManifest (Fulfilled (ManifestError error)) st in
      hasManifestError st' = true
      ∧ isBungieSystemDisabled st'
        = isBungieSystemDisabled st || isBungieSystemDisabledError error
      ∧ isBungieServiceUnavailable st'
        = isBungieServiceUnavailable st
          || bool_decide (message error = "503")
      ∧ manifestData st' = manifestData st)
  ∧ (∀ manifest,
        let st' := doGetManifest (Fulfilled (ManifestOk manifest)) st in
        manifestData st' = Some manifest
        ∧ hasManifestError st' = hasManifestError st
        ∧ isBungieSystemDisabled st' = isBungieSystemDisabled st
        ∧ isBungieServiceUnavailable st' = isBungieServiceUnavailable st)
  ∧ (∀ e,
        hasManifestError (onEvent e st)
        = if clearsManifestError e then false else hasManifestError st).
Proof.
  split; [| split].
  - intros [disabled msg]. unfold doGetManifest. simpl.
    case_bool_decide as Hmsg.
    + apply String.eqb_eq in Hmsg. rewrite Hmsg.
      destruct disabled; simpl; rewrite ?orb_true_r, ?orb_false_r; done.
    + apply String.eqb_neq in Hmsg. rewrite Hmsg.
      destruct disabled; simpl; rewrite ?orb_true_r, ?orb_false_r; done.
  - intros manifest. done.
  - intros []; done.
Qed.

(** Case analysis on one operation of an execution. *)
Ltac step_cases op :=
  destruct op; simpl;
  unfold doAuth, doGetManifest, doGetCharacterData_start,
    doGetCharacterData_catch, runCallback, updateCharacterData, onEvent,
    onSelectMembership, onDragStart, onDragEnd, onDragDrop,
    dropOnCharacterId, App;
  repeat case_match; simpl; try done.

(** What one operation does to the auth-error flag ... *)
Lemma step_hasAuthError op st :
  hasAuthError (step op st)
  = match op with
    | AuthSettled (Fulfilled true) => false
    | AuthSettled _ => true
    | _ => hasAuthError st
    end.
Proof. step_cases op. Qed.

(** ... to the manifest-error flag ... *)
Lemma step_hasManifestError op st :
  hasManifestError (step op st)
  = match op with
    | ManifestSettled (Fulfilled (ManifestOk _)) => hasManifestError st
    | ManifestSettled _ => true
    | Emitted e =>
        if clearsManifestError e then false else hasManifestError st
    | _ => hasManifestError st
    end.
Proof. step_cases op. Qed.

(** ... and to the two Bungie flags: no operation turns them off. *)
Lemma step_isBungieSystemDisabled op st :
  isBungieSystemDisabled st = true →
  isBungieSystemDisabled (step op st) = true.
Proof. intros H. step_cases op. Qed.

Lemma step_isBungieServiceUnavailable op st :
  isBungieServiceUnavailable st = true →
  isBungieServiceUnavailable (step op st) = true.
Proof. intros H. step_cases op. Qed.

Lemma run_snoc ops op st : run (ops ++ [op]) st = step op (run ops st).
Proof. unfold run. by rewrite fold_left_app. Qed.

Lemma run_callbacks callbacks st :
  run (map FetchCalledBack callbacks) st
  = fold_left (fun s cb => runCallback cb s) callbacks st.
Proof.
  revert st. induction callbacks as [|cb callbacks IH]; intros st; [done |].
  simpl. apply IH.
Qed.

(** One whole run of [doGetCharacterData] that passes the guard is the
    execution made of its pieces. *)
Lemma doGetCharacterData_run callbacks outcome st :
  isFetchingCharacterData st = false →
  doGetCharacterData (isFetchingCharacterData st) callbacks outcome st
  = run (FetchStarted :: map FetchCalledBack callbacks
           ++ match outcome with
              | Fulfilled _ => []
              | Rejected error => [FetchRejected error]
              end) st.
Proof.
  intros Hidle. unfold doGetCharacterData. rewrite Hidle. simpl.
  unfold run. rewrite fold_left_app. simpl.
  pose proof (run_callbacks callbacks) as Hcb. unfold run in Hcb.
  rewrite Hcb, Hidle. by destruct outcome.
Qed.

(** A property that every operation preserves holds along every
    execution. *)
Lemma run_preserves (P : @AppState ManifestData → Prop) ops st :
  (∀ op s, op ∈ ops → P s → P (step op s)) → P st → P (run ops st).
Proof.
  revert st. induction ops as [|op ops IH]; intros st Hstep Hst; [done |].
  simpl. apply IH.
  - intros op' s Hin. apply Hstep. by apply list_elem_of_further.
  - apply Hstep; [apply list_elem_of_here | done].
Qed.

(** C7, as amended.  Along every execution: the auth-error flag, once
    set, stays set as long as no auth attempt succeeds, and a successful
    auth attempt clears it; the manifest-error flag, once set, stays set
    as long as neither [GET_MANIFEST] nor [MANIFEST_DATA_READY] is
    emitted, each of which clears it, while a successful manifest fetch
    leaves it as it is; the system-disabled and service-unavailable flags,
    once set, stay set whatever happens, a successful manifest fetch
    included, and the system-disabled message stays displayed. *)
Theorem C7_sticky_flags st ops :
  (hasAuthError st = true →
   AuthSettled (Fulfilled true) ∉ ops →
   hasAuthError (run ops st) = true)
  ∧ hasAuthError (step (AuthSettled (Fulfilled true)) st) = false
  ∧ (hasManifestError st = true →
     Emitted GET_MANIFEST ∉ ops → Emitted MANIFEST_DATA_READY ∉ ops →
     hasManifestError (run ops st) = true)
  ∧ (∀ e, clearsManifestError e = true →
          hasManifestError (step (Emitted e) st) = false)
  ∧ (∀ manifest,
        hasManifestError
          (step (ManifestSettled (Fulfilled (ManifestOk manifest))) st)
        = hasManifestError st)
  ∧ (isBungieSystemDisabled st = true →
     isBungieSystemDisabled (run ops st) = true
     ∧ status (run ops st) = BungieApiDisabled)
  ∧ (isBungieServiceUnavailable st = true →
     isBungieServiceUnavailable (run ops st) = true).
Proof.
  split_and!.
  - intros Hst Hnot.
    apply (run_preserves (fun s => hasAuthError s = true)); [| done].
    intros op s Hin Hs. rewrite step_hasAuthError.
    by destruct op as [[[|]|]| | | | | | | | | |].
  - done.
  - intros Hst Hget Hready.
    apply (run_preserves (fun s => hasManifestError s = true)); [| done].
    intros op s Hin Hs. rewrite step_hasManifestError.
    by destruct op as [|[[|]|]| | | |[]| | | | |].
  - intros e He. rewrite step_hasManifestError. by rewrite He.
  - done.
  - intros Hst.
    assert (isBungieSystemDisabled (run ops st) = true) as Hd.
    { apply (run_preserves (fun s => isBungieSystemDisabled s = true));
        [| done].
      intros op s _. apply step_isBungieSystemDisabled. }
    split; [done |]. unfold status. by rewrite Hd.
  - intros Hst.
    apply (run_preserves (fun s => isBungieServiceUnavailable s = true));
      [| done].
    intros op s _. apply step_isBungieServiceUnavailable.
Qed.

(** *** Drag gestures *)

(** C8.  [onDragEnd] is idempotent, and [dropOnCharacterId] returns at
    its guard, leaving the whole state as it is (the custom order, the
    persisted order and the list of saves made included), when no drag
    is active or when the target is the dragged identifier. *)
Theorem C8_dragEnd_idempotent_drop_guard st target :
  onDragEnd (onDragEnd st) = onDragEnd st
  ∧ (JS.truthy (draggingCharacterId st) = false
     ∨ draggingCharacterId st = Some target →
     dropOnCharacterId target st = st
     ∧ characterDisplayOrder (dropOnCharacterId target st)
       = characterDisplayOrder st
     ∧ persistedOrder (dropOnCharacterId target st) = persistedOrder st
     ∧ effects (dropOnCharacterId target st) = effects st).
Proof.
  split; [done |].
  intros Hguard.
  assert (dropOnCharacterId target st = st) as ->; [| done].
  unfold dropOnCharacterId.
  destruct (draggingCharacterId st) as [d|]; [| done].
  destruct Hguard as [Hfalsy | [= ->]].
  - simpl in Hfalsy. apply negb_false_iff in Hfalsy. by rewrite Hfalsy.
  - by rewrite String.eqb_refl, orb_true_r.
Qed.

(** C9, as amended.  The dragged identifier is one optional value.
    [onDragStart] records exactly its argument, [onDragEnd] clears the
    record, and no other operation changes it: a drop, whether it
    swaps or not, leaves the dragged identifier recorded, and the
    gesture is over only with [onDragEnd]. *)
Theorem C9_drag_state_machine st op :
  draggingCharacterId (step op st)
  = match op with
    | DragStarted characterId => Some characterId
    | DragEnded => None
    | _ => draggingCharacterId st
    end.
Proof. step_cases op. Qed.

(** C10.  With the empty sequence as custom order the state behaves as
    with no custom order: the displayed order is the default order, the
    body of [App] leaves the state as it is, so the empty order is not
    cleared, although [isValidCharacterDisplayOrder] would reject it
    against any non-empty snapshot set, and [dropOnCharacterId] swaps in
    the default order, with the result it has when there is no custom
    order. *)
Theorem C10_empty_custom_order st :
  characterDisplayOrder st = Some [] →
  let st' := setCharacterDisplayOrder None st in
  useCharacterOrder st = getDefaultCharacterDisplayOrder st
  ∧ useCharacterOrder st = useCharacterOrder st'
  ∧ snd (App st) = st
  ∧ (∀ cd, characterData st = Some cd → cd ≠ [] →
           isValidCharacterDisplayOrder st [] = false)
  ∧ currentCharacterOrder st = getDefaultCharacterDisplayOrder st
  ∧ ∀ target,
      currentCharacterOrder (dropOnCharacterId target st)
      = currentCharacterOrder (dropOnCharacterId target st')
      ∧ persistedOrder (dropOnCharacterId target st)
        = persistedOrder (dropOnCharacterId target st')
      ∧ effects (dropOnCharacterId target st)
        = effects (dropOnCharacterId target st')
      ∧ ∀ dragging,
          draggingCharacterId st = Some dragging →
          dragging ≠ "" → dragging ≠ target →
          dropOnCharacterId target st = dropOnCharacterId target st'
          ∧ characterDisplayOrder (dropOnCharacterId target st)
            = Some
                (JS.splice
                   (JS.splice (getDefaultCharacterDisplayOrder st)
                      (JS.indexOf (getDefaultCharacterDisplayOrder st)
                         dragging) 1 [target])
                   (JS.indexOf (getDefaultCharacterDisplayOrder st) target)
                   1 [dragging]).
Proof.
  intros Hempty st'.
  assert (Happ : App st = (getDefaultCharacterDisplayOrder st, st)).
  { unfold App. rewrite Hempty.
    destruct (characterData st) as [cd|]; [| done].
    by rewrite andb_false_r. }
  assert (Hcur : currentCharacterOrder st
                 = getDefaultCharacterDisplayOrder st).
  { unfold currentCharacterOrder. by rewrite Hempty. }
  split_and!.
  - unfold useCharacterOrder. by rewrite Happ.
  - unfold useCharacterOrder. rewrite Happ. unfold App. simpl.
    by destruct (characterData st).
  - by rewrite Happ.
  - intros cd Hcd Hne. unfold isValidCharacterDisplayOrder. rewrite Hcd.
    by destruct cd.
  - done.
  - intros target. split_and!.
    + unfold dropOnCharacterId. simpl.
      destruct (draggingCharacterId st) as [d|]; [| by rewrite Hcur].
      destruct (String.eqb d "" || String.eqb d target);
        by rewrite Hcur.
    + unfold dropOnCharacterId. simpl.
      destruct (draggingCharacterId st) as [d|]; [| done].
      destruct (String.eqb d "" || String.eqb d target);
        by rewrite ?Hcur.
    + unfold dropOnCharacterId. simpl.
      destruct (draggingCharacterId st) as [d|]; [| done].
      destruct (String.eqb d "" || String.eqb d target);
        by rewrite ?Hcur.
    + intros dragging Hd Hne Hdt.
      rewrite (dropOnCharacterId_passed st dragging target Hd Hne Hdt).
      rewrite (dropOnCharacterId_passed st' dragging target Hd Hne Hdt).
      by rewrite Hcur.
Qed.

End Properties.

(** ** Further properties of the controller *)

Section Further.
Context {ManifestData : Type}.
Implicit Types (st : @AppState ManifestData).
Implicit Types (cd : list PowerBarsCharacterData).
Implicit Types (order ids : list string).
Implicit Types (ops : list (@Op ManifestData)).

Ltac op_cases op :=
  destruct op; simpl;
  unfold doAuth, doGetManifest, doGetCharacterData_start,
    doGetCharacterData_catch, runCallback, updateCharacterData, onEvent,
    onSelectMembership, onDragStart, onDragEnd, onDragDrop,
    dropOnCharacterId, App;
  repeat case_match; simpl; try done.

(** *** Authentication *)

(** X1.  Once an auth attempt has settled, exactly one of [isAuthed] and
    [hasAuthError] holds, and [isAuthed] holds exactly when [auth()]
    resolved to true; of two attempts the one that settles last decides,
    whatever the other did. *)
Theorem X1_doAuth_flags authResult earlier st :
  isAuthed (doAuth authResult st) = negb (hasAuthError (doAuth authResult st))
  ∧ (isAuthed (doAuth authResult st) = true ↔ authResult = Fulfilled true)
  ∧ doAuth authResult (doAuth earlier st) = doAuth authResult st.
Proof.
  split_and!.
  - by destruct authResult as [[|]|].
  - destruct authResult as [[|]|]; simpl; split; try done.
  - by destruct authResult as [[|]|], earlier as [[|]|].
Qed.

(** *** Error classification *)

(** X2.  [doGetManifest] classifies an error that [getManifest] returns
    exactly as [doGetCharacterData] classifies an error it catches: both
    leave the two Bungie flags in the same state.  An error that
    [getManifest] throws is not classified: the Bungie flags stay as they
    were, whatever the error is. *)
Theorem X2_error_classification error st :
  isBungieSystemDisabled (doGetManifest (Fulfilled (ManifestError error)) st)
  = isBungieSystemDisabled (doGetCharacterData_catch error st)
  ∧ isBungieServiceUnavailable
      (doGetManifest (Fulfilled (ManifestError error)) st)
    = isBungieServiceUnavailable (doGetCharacterData_catch error st)
  ∧ isBungieSystemDisabled (doGetManifest (Rejected error) st)
    = isBungieSystemDisabled st
  ∧ isBungieServiceUnavailable (doGetManifest (Rejected error) st)
    = isBungieServiceUnavailable st
  ∧ hasManifestError (doGetManifest (Rejected error) st) = true
  ∧ hasManifestError (doGetCharacterData_catch error st)
    = hasManifestError st.
Proof.
  unfold doGetManifest, doGetCharacterData_catch.
  destruct (isBungieSystemDisabledError error),
    (String.eqb (message error) "503"); done.
Qed.

(** *** The fetch-in-flight flag and polling *)

(** What one operation does to [isFetchingCharacterData]. *)
Lemma step_isFetchingCharacterData op st :
  isFetchingCharacterData (step op st)
  = match op with
    | FetchStarted => true
    | FetchCalledBack (OnFetchingChange value) => value
    | _ => isFetchingCharacterData st
    end.
Proof. op_cases op. by apply negb_false_iff. Qed.

(** X3.  Only the [onFetchingChange(false)] callback of [getCharacterData]
    releases the fetch-in-flight flag: the [catch] block of
    [doGetCharacterData] does not.  As long as that callback does not run,
    a fetch that was started stays in flight, rejected or not, and neither
    the interval nor the mount effect starts another one. *)
Theorem X3_fetching_flag_released_by_callback_only st ops :
  isFetchingCharacterData st = true →
  FetchCalledBack (OnFetchingChange false) ∉ ops →
  isFetchingCharacterData (run ops st) = true
  ∧ intervalFetches (run ops st) = false
  ∧ effectFetches (run ops st) = false.
Proof.
  intros Hst Hnot.
  assert (isFetchingCharacterData (run ops st) = true) as Hrun.
  { apply (run_preserves (fun s => isFetchingCharacterData s = true));
      [| done].
    intros op s Hin Hs. rewrite step_isFetchingCharacterData.
    by destruct op as [| | |[|[|]]| | | | | | |]. }
  unfold intervalFetches, effectFetches. rewrite Hrun. simpl.
  by rewrite !andb_false_r.
Qed.

(** What one operation does to [characterData] and to the membership
    flag. *)
Lemma step_characterData op st :
  characterData (step op st)
  = match op with
    | FetchCalledBack (OnData newData) => Some newData
    | _ => characterData st
    end.
Proof. op_cases op. Qed.

Lemma step_hasSelectedMembership op st :
  hasSelectedMembership (step op st)
  = match op with
    | MembershipSelected _ => true
    | _ => hasSelectedMembership st
    end.
Proof. op_cases op. Qed.

(** X4.  Two latches.  A snapshot set, once received, is only ever
    replaced by another one, never dropped, so the mount effect, which
    fetches only while there is none, does not fetch again; and a
    selected membership is never unselected. *)
Theorem X4_characterData_and_membership_latch st ops :
  (is_Some (characterData st) →
   is_Some (characterData (run ops st)) ∧ effectFetches (run ops st) = false)
  ∧ (hasSelectedMembership st = true →
     hasSelectedMembership (run ops st) = true).
Proof.
  split.
  - intros Hst.
    assert (is_Some (characterData (run ops st))) as Hrun.
    { apply (run_preserves (fun s => is_Some (characterData s))); [| done].
      intros op s _ Hs. rewrite step_characterData.
      by destruct op as [| | |[|]| | | | | | |]. }
    split; [done |]. unfold effectFetches.
    by destruct Hrun as [cd ->].
  - intros Hst.
    apply (run_preserves (fun s => hasSelectedMembership s = true)); [| done].
    intros op s _ Hs. rewrite step_hasSelectedMembership. by destruct op.
Qed.


(** *** Manifest progress *)

Lemma step_manifestState op st :
  manifestState (step op st)
  = match op with
    | Emitted e => default (manifestState st) (stageText e)
    | _ => manifestState st
    end.
Proof. op_cases op. Qed.

Lemma run_manifestState ops st :
  manifestState (run ops st) = default (manifestState st) (lastStage ops).
Proof.
  revert st. induction ops as [|op ops IH]; intros st; [done |].
  simpl. rewrite IH, step_manifestState.
  destruct (lastStage ops) as [text|]; [done |].
  by destruct op.
Qed.

(** X6.  The manifest stage text is that of the last progress event
    handled, whatever else happened in between, and the manifest counts
    as ready exactly when that text is "Manifest ready": the completion of
    [getManifest] itself has no part in it. *)
Theorem X6_manifestState_last_stage st ops :
  manifestState (run ops st) = default (manifestState st) (lastStage ops)
  ∧ hasManifestData (run ops st)
    = String.eqb (default (manifestState st) (lastStage ops))
        "Manifest ready"
  ∧ ∀ manifestResult,
      hasManifestData (step (ManifestSettled manifestResult) st)
      = hasManifestData st.
Proof.
  split_and!; [apply run_manifestState | |].
  - unfold hasManifestData. by rewrite run_manifestState.
  - intros manifestResult. unfold hasManifestData.
    by rewrite step_manifestState.
Qed.

(** *** The empty status *)

Lemma lastStage_nonempty ops text : lastStage ops = Some text → text ≠ "".
Proof.
  induction ops as [|op ops IH]; simpl; [done |].
  destruct (lastStage ops) as [text'|]; [intros [= <-]; by apply IH |].
  destruct op as [| | | | |[]| | | | |]; simpl; intros [= <-]; done.
Qed.

(** X7.  In every state an execution can reach from the start, the status
    is the empty string, and the character cards are shown without a
    status spinner, exactly when nothing is wrong and everything is
    loaded: no error flag, authenticated, a membership selected, the
    manifest ready and a non-empty snapshot set. *)
Theorem X7_empty_status_iff_loaded
    (hasManuallyAuthed hasValidAuth hasSelectedDestinyMembership : bool)
    (stored : option (list string)) ops :
  let st :=
    run ops
      (initialState (ManifestData := ManifestData) hasManuallyAuthed
         hasValidAuth hasSelectedDestinyMembership stored) in
  let loaded :=
    isBungieSystemDisabled st = false
    ∧ isBungieServiceUnavailable st = false
    ∧ hasAuthError st = false
    ∧ hasManifestError st = false
    ∧ isAuthed st = true
    ∧ hasSelectedMembership st = true
    ∧ hasManifestData st = true
    ∧ ∃ c cd, characterData st = Some (c :: cd) in
  (status st = StatusText "" ↔ loaded)
  ∧ ((∃ shown fetching, view st = CharactersView shown None fetching)
     ↔ loaded).
Proof.
  intros st loaded.
  assert (manifestState st ≠ "") as Hstage.
  { unfold st.
    rewrite run_manifestState. simpl.
    destruct (lastStage ops) as [text|] eqn:Hlast; simpl; [| done].
    by apply (lastStage_nonempty ops). }
  assert (status st = StatusText "" ↔ loaded) as Hstatus.
  { unfold loaded, status. clearbody st.
    destruct (isBungieSystemDisabled st); [split; [done | by intros [? _]] |].
    destruct (isBungieServiceUnavailable st);
      [split; [done | by intros (_ & ? & _)] |].
    destruct (hasAuthError st); [split; [done | by intros (_ & _ & ? & _)] |].
    destruct (hasManifestError st);
      [split; [done | by intros (_ & _ & _ & ? & _)] |].
    destruct (isAuthed st); simpl;
      [| split; [done | by intros (_ & _ & _ & _ & ? & _)]].
    destruct (hasSelectedMembership st); simpl;
      [| split; [done | by intros (_ & _ & _ & _ & _ & ? & _)]].
    destruct (hasManifestData st); simpl.
    - destruct (characterData st) as [[|c cd]|]; simpl.
      + split; [by destruct (isFetchingCharacterData st) |].
        by intros (_ & _ & _ & _ & _ & _ & _ & c & cd & ?).
      + split; [intros _; split_and!; try done; by exists c, cd | done].
      + split; [by destruct (isFetchingCharacterData st) |].
        by intros (_ & _ & _ & _ & _ & _ & _ & c & cd & ?).
    - split; [intros [= ?]; done |].
      by intros (_ & _ & _ & _ & _ & _ & ? & _). }
  split; [exact Hstatus |].
  rewrite <- Hstatus. unfold view. split.
  - intros (shown & fetching & Hview).
    destruct (isAuthed st && _); [| by destruct (hasAuthError st && _)].
    destruct (status st) as [text| | | |]; simpl in Hview; try done.
    destruct (String.eqb text "") eqn:E; simpl in Hview; [| done].
    by apply String.eqb_eq in E as ->.
  - intros Hempty. pose proof (proj1 Hstatus Hempty) as Hloaded.
    destruct Hloaded as (_ & _ & _ & _ & -> & _ & _ & c & cd & ->).
    rewrite Hempty. simpl. by eexists _, _.
Qed.

(** *** The character cards *)

Lemma find_characterId cd id :
  id ∈ characterIdsOf cd →
  ∃ c, JS.find (fun c => String.eqb (characterId (character c)) id) cd
       = Some c
       ∧ c ∈ cd ∧ characterId (character c) = id.
Proof.
  induction cd as [|c cd IH]; simpl; intros Hin.
  - by apply elem_of_nil in Hin.
  - destruct (String.eqb (characterId (character c)) id) eqn:E.
    + apply String.eqb_eq in E. exists c.
      split; [done | split; [apply list_elem_of_here | done]].
    + apply String.eqb_neq in E.
      apply elem_of_cons in Hin as [-> | Hin]; [done |].
      destruct (IH Hin) as (c' & Hfind & Hc' & Hid). exists c'.
      split; [done | split; [by apply list_elem_of_further | done]].
Qed.

(** Every identifier of the displayed order is one of the snapshot set. *)
Lemma useCharacterOrder_known st id :
  id ∈ useCharacterOrder st →
  id ∈ characterIdsOf (default [] (characterData st)).
Proof.
  intros Hid.
  destruct (useCharacterOrder_cases st) as [(order & Hord & Hv & Huse) | Huse];
    rewrite Huse in Hid.
  - unfold isValidCharacterDisplayOrder in Hv.
    destruct (characterData st) as [cd|] eqn:Hcd; [| done]. simpl.
    assert (isValidCharacterDisplayOrder st order = true) as Hv'.
    { unfold isValidCharacterDisplayOrder. by rewrite Hcd. }
    apply (isValidCharacterDisplayOrder_true st cd order Hcd) in Hv'
      as (_ & Hknown & _).
    by apply Hknown.
  - unfold getDefaultCharacterDisplayOrder in Hid.
    by destruct (characterData st).
Qed.

(** X8.  The lookup behind every card succeeds and finds the right
    character: whatever the state, there is one card for each position
    of the displayed order, and the card at a position is what
    [characterData.find] yields there, a character of the snapshot set
    whose identifier is the one the displayed order has at that position,
    so the non-null assertion on the card data never meets
    [undefined]. *)
Theorem X8_cards_defined st i id :
  useCharacterOrder st !! i = Some id →
  length (cards (default [] (characterData st)) (useCharacterOrder st))
  = length (useCharacterOrder st)
  ∧ ∃ c,
      cards (default [] (characterData st)) (useCharacterOrder st) !! i
      = Some (Some c)
      ∧ c ∈ default [] (characterData st)
      ∧ characterId (character c) = id.
Proof.
  intros Hi. unfold cards. split; [apply length_map |].
  assert (id ∈ useCharacterOrder st) as Hid
    by by apply list_elem_of_lookup_2 in Hi.
  destruct (find_characterId _ id (useCharacterOrder_known st id Hid))
    as (c & Hfind & Hc & Hcid).
  exists c. split; [| done].
  change (map ?f ?l) with (f <$> l).
  by rewrite list_lookup_fmap, Hi; simpl; rewrite Hfind.
Qed.

Lemma cards_default cd :
  NoDup (characterIdsOf cd) → cards cd (characterIdsOf cd) = map Some cd.
Proof.
  unfold cards, characterIdsOf. rewrite map_map.
  induction cd as [|c cd IH]; simpl; intros Hnd; [done |].
  apply NoDup_cons in Hnd as [Hc Hnd].
  rewrite String.eqb_refl. f_equal.
  rewrite <- (IH Hnd). apply map_ext_in. intros c' Hc'.
  destruct (String.eqb (characterId (character c))
              (characterId (character c'))) eqn:E; [| done].
  apply String.eqb_eq in E. destruct Hc. rewrite E.
  apply list_elem_of_fmap. exists c'. split; [done |].
  by apply list_elem_of_In.
Qed.

(** X9.  When the identifiers of the snapshot set are pairwise distinct,
    the cards are the characters of the snapshot set, each exactly once,
    in some order: no character is left out or shown twice. *)
Theorem X9_cards_show_every_character st :
  NoDup (characterIdsOf (default [] (characterData st))) →
  cards (default [] (characterData st)) (useCharacterOrder st)
  ≡ₚ map Some (default [] (characterData st)).
Proof.
  intros Hnd.
  rewrite <- (cards_default _ Hnd). unfold cards.
  apply Permutation_map.
  destruct (useCharacterOrder_cases st) as [(order & Hord & Hv & ->) | ->].
  - destruct (characterData st) as [cd|] eqn:Hcd.
    + by apply (valid_order_Permutation st cd order).
    + unfold isValidCharacterDisplayOrder in Hv. by rewrite Hcd in Hv.
  - unfold getDefaultCharacterDisplayOrder. by destruct (characterData st).
Qed.

(** *** Rendering again *)

(** X10.  Rendering is stable: after the body of [App] has run once,
    running it again changes nothing, and it displays the order it
    displayed the first time, so clearing a stale custom order costs one
    extra render and no visible change. *)
Theorem X10_App_stable st :
  snd (App (snd (App st))) = snd (App st)
  ∧ useCharacterOrder (snd (App st)) = useCharacterOrder st.
Proof.
  unfold useCharacterOrder, App.
  destruct (characterData st) as [cd|] eqn:Hcd; simpl; rewrite ?Hcd; [| done].
  destruct (characterDisplayOrder st) as [order|] eqn:Hord; simpl;
    rewrite ?Hcd, ?Hord; [| done].
  destruct ((0 <? length cd)%nat && (0 <? length order)%nat) eqn:Hne; simpl;
    rewrite ?Hcd, ?Hord, ?Hne; [| done].
  destruct (isValidCharacterDisplayOrder st order) eqn:Hv; simpl;
    rewrite ?Hcd, ?Hord, ?Hne, ?Hv; simpl; rewrite ?Hcd; done.
Qed.

(** *** The custom order and its persisted copy *)

(** X11.  In every state an execution can reach from the start, the
    custom order in memory is either absent or equal to the persisted
    one: a drop writes the same order to both, and nothing else ever
    changes the in-memory order except to clear it. *)
Theorem X11_custom_order_is_persisted
    (hasManuallyAuthed hasValidAuth hasSelectedDestinyMembership : bool)
    (stored : option (list string)) ops :
  let st :=
    run ops
      (initialState (ManifestData := ManifestData) hasManuallyAuthed
         hasValidAuth hasSelectedDestinyMembership stored) in
  characterDisplayOrder st = None
  ∨ characterDisplayOrder st = persistedOrder st.
Proof.
  apply (run_preserves
           (fun s => characterDisplayOrder s = None
                     ∨ characterDisplayOrder s = persistedOrder s));
    [| by right].
  intros op s _ Hs.
  op_cases op; try by (left + right).
  all: destruct Hs as [Hs|Hs]; [by left | right; congruence].
Qed.

(** *** Drops *)

Lemma indexOf_range (xs : list string) x :
  (-1 ≤ JS.indexOf xs x < Z.of_nat (length xs))%Z.
Proof.
  destruct (decide (x ∈ xs)) as [Hin | Hnin].
  - destruct (JSFacts.indexOf_elem xs x Hin) as (n & -> & Hn & _).
    apply lookup_lt_Some in Hn. lia.
  - rewrite (JSFacts.indexOf_not_elem xs x Hnin). lia.
Qed.

(** On a non-empty array [splice(k, 1, x)] with [k] an answer of
    [indexOf] overwrites one position: position [k], or the last one when
    [k] is -1. *)
Lemma splice_one_overwrites {A} (xs : list A) (k : Z) (x : A) :
  xs ≠ [] → (-1 ≤ k < Z.of_nat (length xs))%Z →
  JS.splice xs k 1 [x]
  = <[Z.to_nat (if (k <? 0)%Z then Z.of_nat (length xs) - 1 else k) := x]> xs.
Proof.
  intros Hne Hk.
  assert (0 < length xs)%nat as Hlen by (destruct xs; [done | simpl; lia]).
  destruct (Z.ltb_spec k 0) as [Hneg | Hpos].
  - assert (k = (-1)%Z) as -> by lia.
    rewrite <- (JSFacts.splice_one_insert xs (Z.to_nat (Z.of_nat (length xs) - 1)))
      by lia.
    unfold JS.splice. simpl.
    rewrite Z2Nat.id by lia.
    destruct (Z.ltb_spec (Z.of_nat (length xs) - 1) 0) as [? | _]; [lia |].
    repeat f_equal; lia.
  - rewrite <- (JSFacts.splice_one_insert xs (Z.to_nat k)) by lia.
    by rewrite Z2Nat.id by lia.
Qed.

Lemma indexOf_NoDup (xs : list string) x n :
  NoDup xs → xs !! n = Some x → JS.indexOf xs x = Z.of_nat n.
Proof.
  intros Hnd Hn.
  destruct (JSFacts.indexOf_elem xs x) as (n' & -> & Hn' & _).
  { by apply list_elem_of_lookup_2 in Hn. }
  by rewrite (NoDup_lookup xs n n' x Hnd Hn Hn').
Qed.

(** The order a drop stores when both identifiers are in the current
    order. *)
Lemma swappedOrder_present (cur : list string) dragging target :
  dragging ∈ cur → target ∈ cur →
  ∃ i j : nat,
    cur !! i = Some dragging ∧ cur !! j = Some target
    ∧ JS.splice
        (JS.splice cur (JS.indexOf cur dragging) 1 [target])
        (JS.indexOf cur target) 1 [dragging]
      = <[j:=dragging]> (<[i:=target]> cur).
Proof.
  intros Hd Ht.
  destruct (JSFacts.indexOf_elem cur dragging Hd) as (i & -> & Hi & _).
  destruct (JSFacts.indexOf_elem cur target Ht) as (j & -> & Hj & _).
  exists i, j. split; [done | split; [done |]].
  rewrite (JSFacts.splice_one_insert cur i)
    by (by apply lookup_lt_Some in Hi).
  rewrite (JSFacts.splice_one_insert _ j)
    by (rewrite length_insert; by apply lookup_lt_Some in Hj).
  done.
Qed.

(** A permutation of the snapshot identifiers is a valid order. *)
Lemma Permutation_valid st cd order :
  characterData st = Some cd →
  order ≡ₚ characterIdsOf cd →
  isValidCharacterDisplayOrder st order = true.
Proof.
  intros Hcd Hperm.
  apply (isValidCharacterDisplayOrder_true st cd order Hcd).
  split; [| split].
  - by rewrite <- length_characterIdsOf, Hperm.
  - intros id. by rewrite Hperm.
  - intros id. by rewrite Hperm.
Qed.

(** X12.  A swap is never thrown away: when the current order is a
    permutation of the snapshot identifiers, as the default order always
    is, the order stored by dropping one displayed card on another is
    valid, so the next render displays it and leaves the state alone. *)
Theorem X12_swapped_order_is_displayed st cd dragging target :
  characterData st = Some cd →
  currentCharacterOrder st ≡ₚ characterIdsOf cd →
  draggingCharacterId st = Some dragging →
  dragging ≠ "" → dragging ≠ target →
  dragging ∈ currentCharacterOrder st →
  target ∈ currentCharacterOrder st →
  ∃ swapped,
    characterDisplayOrder (dropOnCharacterId target st) = Some swapped
    ∧ isValidCharacterDisplayOrder (dropOnCharacterId target st) swapped
      = true
    ∧ useCharacterOrder (dropOnCharacterId target st) = swapped
    ∧ snd (App (dropOnCharacterId target st)) = dropOnCharacterId target st.
Proof.
  intros Hcd Hperm Hd Hne Hdt Hin_d Hin_t.
  rewrite (dropOnCharacterId_passed st dragging target Hd Hne Hdt). simpl.
  destruct (swappedOrder_present _ dragging target Hin_d Hin_t)
    as (i & j & Hi & Hj & ->).
  set (swapped := <[j:=dragging]> (<[i:=target]> (currentCharacterOrder st))).
  set (st' := setCharacterDisplayOrder (Some swapped)
                (saveCharacterDisplayOrder swapped st)).
  assert (swapped ≡ₚ characterIdsOf cd) as Hswapped.
  { rewrite <- Hperm. apply JSFacts.swap_Permutation; [| done | done].
    intros ->. congruence. }
  assert (isValidCharacterDisplayOrder st' swapped = true) as Hv.
  { by apply (Permutation_valid st' cd). }
  assert (App st' = (swapped, st')) as Happ.
  { rewrite (App_checked st' cd swapped); [by rewrite Hv | done | | done |].
    - intros ->. apply Permutation_nil_r in Hperm. rewrite Hperm in Hin_d.
      by apply elem_of_nil in Hin_d.
    - intros Hnil. apply lookup_lt_Some in Hj.
      assert (length swapped = 0%nat) as Hlen by by rewrite Hnil.
      unfold swapped in Hlen. rewrite !length_insert in Hlen. lia. }
  exists swapped. unfold useCharacterOrder. by rewrite Happ.
Qed.

(** X13.  A drop with a dragged identifier that is neither in the current
    order nor in the snapshot set stores an order that contains it; the
    next render finds that order invalid, displays the default order and
    clears the custom order in memory, while the persisted copy keeps the
    invalid order. *)
Theorem X13_foreign_dragged_id_is_healed st cd dragging target :
  characterData st = Some cd → cd ≠ [] →
  draggingCharacterId st = Some dragging → dragging ≠ "" →
  dragging ∉ currentCharacterOrder st →
  dragging ∉ characterIdsOf cd →
  target ∈ currentCharacterOrder st →
  ∃ swapped,
    characterDisplayOrder (dropOnCharacterId target st) = Some swapped
    ∧ dragging ∈ swapped
    ∧ isValidCharacterDisplayOrder (dropOnCharacterId target st) swapped
      = false
    ∧ useCharacterOrder (dropOnCharacterId target st) = characterIdsOf cd
    ∧ characterDisplayOrder (snd (App (dropOnCharacterId target st))) = None
    ∧ persistedOrder (snd (App (dropOnCharacterId target st)))
      = Some swapped.
Proof.
  intros Hcd Hne Hd Hdne Hnin Hforeign Hin_t.
  assert (dragging ≠ target) as Hdt by (intros ->; done).
  rewrite (dropOnCharacterId_passed st dragging target Hd Hdne Hdt). simpl.
  set (cur := currentCharacterOrder st) in *.
  assert (cur ≠ []) as Hcur.
  { intros Hnil. rewrite Hnil in Hin_t. by apply elem_of_nil in Hin_t. }
  destruct (JSFacts.indexOf_elem cur target Hin_t) as (j & Hj & Hlj & _).
  rewrite (splice_one_overwrites cur _ target Hcur (indexOf_range cur _)).
  set (first := <[_:=target]> cur).
  assert (length first = length cur) as Hlen by apply length_insert.
  rewrite Hj, (JSFacts.splice_one_insert first j dragging)
    by (rewrite Hlen; by apply lookup_lt_Some in Hlj).
  set (swapped := <[j:=dragging]> first).
  set (st' := setCharacterDisplayOrder (Some swapped)
                (saveCharacterDisplayOrder swapped st)).
  assert (swapped !! j = Some dragging) as Hsj.
  { apply list_lookup_insert_eq. rewrite Hlen.
    by apply lookup_lt_Some in Hlj. }
  assert (dragging ∈ swapped) as Hin by by apply list_elem_of_lookup_2 in Hsj.
  assert (isValidCharacterDisplayOrder st' swapped = false) as Hv.
  { destruct (isValidCharacterDisplayOrder st' swapped) eqn:Hv; [| done].
    apply (isValidCharacterDisplayOrder_true st' cd swapped Hcd) in Hv
      as (_ & Hknown & _).
    destruct Hforeign. by apply Hknown. }
  assert (App st' = (characterIdsOf cd, setCharacterDisplayOrder None st'))
    as Happ.
  { rewrite (App_checked st' cd swapped); [by rewrite Hv | done | done | done |].
    intros Hnil. rewrite Hnil in Hin. by apply elem_of_nil in Hin. }
  exists swapped. unfold useCharacterOrder. by rewrite Happ.
Qed.

(** X14.  A drop that passes the guard never changes the length of a
    non-empty order, whether or not the two identifiers occur in it: each
    [splice] overwrites one position.  On an empty order, which no card
    can be dragged from, it stores the one-element order made of the
    dragged identifier. *)
Theorem X14_drop_keeps_length st dragging target :
  draggingCharacterId st = Some dragging →
  dragging ≠ "" → dragging ≠ target →
  ∃ swapped,
    characterDisplayOrder (dropOnCharacterId target st) = Some swapped
    ∧ persistedOrder (dropOnCharacterId target st) = Some swapped
    ∧ (currentCharacterOrder st ≠ [] →
       length swapped = length (currentCharacterOrder st))
    ∧ (currentCharacterOrder st = [] → swapped = [dragging]).
Proof.
  intros Hd Hne Hdt.
  rewrite (dropOnCharacterId_passed st dragging target Hd Hne Hdt). simpl.
  set (cur := currentCharacterOrder st).
  eexists. split; [done | split; [done | split]].
  - intros Hcur.
    rewrite (splice_one_overwrites cur _ target Hcur (indexOf_range cur _)).
    set (first := <[_:=target]> cur).
    assert (length first = length cur) as Hlen by apply length_insert.
    assert (first ≠ []) as Hfirst.
    { intros Hnil. rewrite Hnil in Hlen. by destruct cur. }
    rewrite (splice_one_overwrites first _ dragging Hfirst).
    + by rewrite length_insert.
    + rewrite Hlen. apply indexOf_range.
  - by intros ->.
Qed.

(** X15.  Swapping is an involution: when the current order has no
    repeated identifier and holds both the dragged identifier and the
    target, dropping on the same target a second time restores the order
    there was before the first drop. *)
Theorem X15_drop_twice_restores st dragging target :
  NoDup (currentCharacterOrder st) →
  draggingCharacterId st = Some dragging →
  dragging ≠ "" → dragging ≠ target →
  dragging ∈ currentCharacterOrder st →
  target ∈ currentCharacterOrder st →
  characterDisplayOrder
    (dropOnCharacterId target (dropOnCharacterId target st))
  = Some (currentCharacterOrder st)
  ∧ persistedOrder (dropOnCharacterId target (dropOnCharacterId target st))
    = Some (currentCharacterOrder st).
Proof.
  intros Hnd Hd Hne Hdt Hin_d Hin_t.
  rewrite (dropOnCharacterId_passed st dragging target Hd Hne Hdt).
  set (cur := currentCharacterOrder st) in *.
  destruct (swappedOrder_present cur dragging target Hin_d Hin_t)
    as (i & j & Hi & Hj & Hswap).
  cbv zeta. rewrite Hswap.
  set (swapped := <[j:=dragging]> (<[i:=target]> cur)).
  set (st' := setCharacterDisplayOrder (Some swapped)
                (saveCharacterDisplayOrder swapped st)).
  assert (i ≠ j) as Hij by (intros ->; congruence).
  pose proof (lookup_lt_Some _ _ _ Hi) as Hilt.
  pose proof (lookup_lt_Some _ _ _ Hj) as Hjlt.
  assert (swapped !! j = Some dragging) as Hsj.
  { apply list_lookup_insert_eq. by rewrite length_insert. }
  assert (swapped !! i = Some target) as Hsi.
  { unfold swapped. rewrite list_lookup_insert_ne by done.
    by apply list_lookup_insert_eq. }
  assert (NoDup swapped) as Hnd'.
  { assert (swapped ≡ₚ cur) as Hperm
      by by apply JSFacts.swap_Permutation.
    by rewrite Hperm. }
  assert (currentCharacterOrder st' = swapped) as Hcur'.
  { unfold currentCharacterOrder, st'. simpl.
    destruct (Nat.ltb_spec 0 (length swapped)) as [_ | Hlen]; [done |].
    unfold swapped in Hlen. rewrite !length_insert in Hlen. lia. }
  rewrite (dropOnCharacterId_passed st' dragging target Hd Hne Hdt).
  cbv zeta. rewrite Hcur'.
  rewrite (indexOf_NoDup swapped dragging j Hnd' Hsj).
  rewrite (indexOf_NoDup swapped target i Hnd' Hsi).
  rewrite (JSFacts.splice_one_insert swapped j target)
    by (unfold swapped; by rewrite !length_insert).
  rewrite (JSFacts.splice_one_insert _ i dragging)
    by (unfold swapped; by rewrite !length_insert).
  assert (<[i:=dragging]> (<[j:=target]> swapped) = cur) as ->;
    [| by split].
  unfold swapped.
  rewrite list_insert_insert_eq.
  rewrite (list_insert_insert_ne _ j i) by congruence.
  rewrite list_insert_insert_eq.
  rewrite (list_insert_id cur j target Hj).
  by apply list_insert_id.
Qed.

(** *** The rendered view *)

(** X16.  After an auth attempt that did not succeed, the login prompt is
    shown exactly when manual login is not disabled; when it is disabled
    the status is shown instead, and character cards never are.  After a
    log-out, which enables manual login again, a failed attempt always
    shows the login prompt. *)
Theorem X16_failed_auth_view authResult st :
  authResult ≠ Fulfilled true →
  view (doAuth authResult st)
  = (if disableManualLogin st
     then LoadingView (status (doAuth authResult st))
     else LoginPromptView)
  ∧ view (doAuth authResult (onEvent LOG_OUT st)) = LoginPromptView.
Proof.
  intros Hfail. unfold view.
  destruct authResult as [[|]|]; [done | | ]; simpl;
    by destruct (disableManualLogin st).
Qed.

Lemma step_isAuthed op st :
  isAuthed (step op st)
  = match op with
    | AuthSettled (Fulfilled true) => true
    | AuthSettled _ => false
    | Emitted LOG_OUT => false
    | _ => isAuthed st
    end.
Proof. op_cases op. Qed.

(** X17.  From a state in which the user is not authenticated, and from
    the state a log-out leaves, no execution brings the character cards
    back before an auth attempt succeeds, whatever data arrives:
    [isAuthed] stays false, the view is the login prompt or the status,
    and the first effect keeps asking for authentication. *)
Theorem X17_no_cards_until_authed st s ops :
  (s = st ∧ isAuthed st = false) ∨ s = onEvent LOG_OUT st →
  AuthSettled (Fulfilled true) ∉ ops →
  isAuthed (run ops s) = false
  ∧ effectAuths (run ops s) = true
  ∧ (view (run ops s) = LoginPromptView
     ∨ view (run ops s) = LoadingView (status (run ops s))).
Proof.
  intros Hs Hnot.
  assert (isAuthed s = false) as Hstart.
  { by destruct Hs as [[-> ?] | ->]. }
  assert (isAuthed (run ops s) = false) as Hrun.
  { apply (run_preserves (fun s => isAuthed s = false)); [| done].
    intros op s' Hin Hs'. rewrite step_isAuthed.
    by destruct op as [[[|]|]| | | | |[]| | | | |]. }
  unfold effectAuths, view. rewrite Hrun. simpl.
  split_and!; try done.
  destruct (hasAuthError (run ops s) && _); by (left + right).
Qed.

(** *** A whole fetch *)

Lemma fold_runCallback callbacks st :
  let st' := fold_left (fun s cb => runCallback cb s) callbacks st in
  effects st' = effects st ++ flat_map callbackEffects callbacks
  ∧ characterData st'
    = from_option Some (characterData st)
        (last (omap deliveredData callbacks))
  ∧ isFetchingCharacterData st'
    = default (isFetchingCharacterData st)
        (last (omap fetchingChange callbacks))
  ∧ isBungieSystemDisabled st' = isBungieSystemDisabled st
  ∧ isBungieServiceUnavailable st' = isBungieServiceUnavailable st.
Proof.
  induction callbacks as [|cb callbacks IH] using rev_ind; simpl.
  - by rewrite app_nil_r.
  - rewrite fold_left_app, flat_map_app, omap_app, omap_app. simpl.
    destruct IH as (Heff & Hdata & Hfetching & Hdis & Hun).
    destruct cb as [newData | value]; simpl;
      rewrite ?app_nil_r, ?last_snoc; simpl.
    + rewrite Heff, <- !app_assoc. done.
    + done.
Qed.

(** X18.  A run of [doGetCharacterData] that finds no fetch in flight
    calls [ga.set] once for each snapshot set delivered, right before
    publishing it and in the order of delivery, and calls nothing else;
    it leaves the last snapshot set delivered as the character data, and
    the last value handed to [onFetchingChange] as the in-flight flag,
    which is true when there was none.  A rejection adds no call and
    changes neither. *)
Theorem X18_doGetCharacterData_whole_run st callbacks outcome :
  isFetchingCharacterData st = false →
  let st' :=
    doGetCharacterData (isFetchingCharacterData st) callbacks outcome st in
  effects st' = effects st ++ flat_map callbackEffects callbacks
  ∧ characterData st'
    = from_option Some (characterData st)
        (last (omap deliveredData callbacks))
  ∧ isFetchingCharacterData st'
    = default true (last (omap fetchingChange callbacks)).
Proof.
  intros Hidle. unfold doGetCharacterData. rewrite Hidle. simpl.
  destruct (fold_runCallback callbacks
              (doGetCharacterData_start false st))
    as (Heff & Hdata & Hfetching & _).
  simpl in Heff, Hdata, Hfetching.
  destruct outcome as [[]|error]; [done |].
  unfold doGetCharacterData_catch.
  destruct (isBungieSystemDisabledError error),
    (String.eqb (message error) "503"); done.
Qed.

End Further.

(** ** The theorems at concrete states *)

Lemma C1_witness :
  (isValidCharacterDisplayOrder loaded ["B"; "A"] = true
   ↔ length ["B"; "A"] = size (idSet [snapshot "A" 750; snapshot "B" 760])
     ∧ (∀ id, id ∈ ["B"; "A"]
              → id ∈ idSet [snapshot "A" 750; snapshot "B" 760])
     ∧ (∀ id, id ∈ idSet [snapshot "A" 750; snapshot "B" 760]
              → id ∈ ["B"; "A"]))
  ∧ (¬ NoDup ["B"; "A"]
     → isValidCharacterDisplayOrder loaded ["B"; "A"] = false).
Proof.
  apply (C1_isValidCharacterDisplayOrder_set_equality loaded
           [snapshot "A" 750; snapshot "B" 760] ["B"; "A"]).
  - reflexivity.
  - apply (bool_decide_unpack _). vm_compute. exact I.
Defined.

(** C2 as stated fails when the dragged identifier is not in the current
    order: [indexOf] answers -1, [splice(-1, 1, "A")] overwrites the last
    position, and the order ["A"; "B"] becomes ["C"; "A"], which has lost
    "B" and gained "C". *)
Lemma C2_counterexample :
  draggingCharacterId (onDragStart "C" loaded) = Some "C"
  ∧ "C" ≠ "A"
  ∧ currentCharacterOrder (onDragStart "C" loaded) = ["A"; "B"]
  ∧ characterDisplayOrder (dropOnCharacterId "A" (onDragStart "C" loaded))
    = Some ["C"; "A"]
  ∧ ¬ (["C"; "A"] ≡ₚ ["A"; "B"]).
Proof.
  split_and!; try done.
  intros Hperm.
  assert ("C" ∈ ["A"; "B"]) as Hin.
  { rewrite <- Hperm. apply list_elem_of_here. }
  apply elem_of_cons in Hin as [? | Hin]; [done |].
  apply elem_of_cons in Hin as [? | Hin]; [done |].
  by apply elem_of_nil in Hin.
Qed.

Lemma C2_witness :
  ∃ (i j : nat) (swapped : list string),
    JS.indexOf (currentCharacterOrder (onDragStart "B" loaded)) "B"
    = Z.of_nat i
    ∧ JS.indexOf (currentCharacterOrder (onDragStart "B" loaded)) "A"
      = Z.of_nat j
    ∧ currentCharacterOrder (onDragStart "B" loaded) !! i = Some "B"
    ∧ currentCharacterOrder (onDragStart "B" loaded) !! j = Some "A"
    ∧ swapped !! i = Some "A"
    ∧ swapped !! j = Some "B"
    ∧ (∀ k, k ≠ i → k ≠ j →
            swapped !! k
            = currentCharacterOrder (onDragStart "B" loaded) !! k)
    ∧ swapped ≡ₚ currentCharacterOrder (onDragStart "B" loaded)
    ∧ characterDisplayOrder (dropOnCharacterId "A" (onDragStart "B" loaded))
      = Some swapped
    ∧ persistedOrder (dropOnCharacterId "A" (onDragStart "B" loaded))
      = Some swapped
    ∧ effects (dropOnCharacterId "A" (onDragStart "B" loaded))
      = effects (onDragStart "B" loaded)
        ++ [SaveCharacterDisplayOrder swapped].
Proof.
  apply (C2_dropOnCharacterId_swaps (onDragStart "B" loaded) "B" "A").
  - reflexivity.
  - discriminate.
  - discriminate.
  - apply (bool_decide_unpack _). vm_compute. exact I.
  - apply (bool_decide_unpack _). vm_compute. exact I.
Defined.



Lemma C4_witness :
  status
    (setAuthError true
       (setManifestError true
          (setBungieServiceUnavailable true
             (setBungieSystemDisabled true started))))
  = BungieApiDisabled.
Proof.
  apply (proj2 (proj2 (C4_status_precedence _))). reflexivity.
Defined.

Lemma C5_witness :
  newOverallPower [snapshot "A" 750; snapshot "B" 760] = JS.Num 760
  ∧ newArtifactPower [snapshot "A" 750; snapshot "B" 760] = JS.Num 0
  ∧ newTotalPower [snapshot "A" 750; snapshot "B" 760] = JS.Num 760
  ∧ effects (updateCharacterData [snapshot "A" 750; snapshot "B" 760] started)
    = effects started
      ++ [GaSet {| dimension1 := "760"; dimension2 := "0";
                   dimension3 := "760" |};
          SetCharacterData [snapshot "A" 750; snapshot "B" 760]].
Proof.
  destruct (C5_updateCharacterData_metrics started
              [snapshot "A" 750; snapshot "B" 760])
    as (_ & _ & _ & (overall & artifact & Ho & Ha & Ht & _ & _ & _ & He)
        & _).
  - intros c Hc.
    apply elem_of_cons in Hc as [-> | Hc];
      [split; unfold JS.isSafeInteger, artifactBonusPower, snapshot; simpl; lia |].
    apply elem_of_cons in Hc as [-> | Hc];
      [split; unfold JS.isSafeInteger, artifactBonusPower, snapshot; simpl; lia |].
    by apply elem_of_nil in Hc.
  - intros c c' Hc Hc'.
    apply elem_of_cons in Hc as [-> | Hc];
      [| apply elem_of_cons in Hc as [-> | Hc];
         [| by apply elem_of_nil in Hc]];
    (apply elem_of_cons in Hc' as [-> | Hc'];
      [| apply elem_of_cons in Hc' as [-> | Hc'];
         [| by apply elem_of_nil in Hc']]);
    unfold JS.isSafeInteger, artifactBonusPower, snapshot; simpl; lia.
  - injection Ho as <-. injection Ha as <-.
    split; [reflexivity | split; [reflexivity | split; [exact Ht |]]].
    exact He.
Defined.

(** C6 as stated fails in both halves.  After a fetch that threw, a fetch
    that succeeds stores the manifest and leaves the manifest-error flag
    set; and with the system-disabled flag already set by a character-data
    failure, a manifest fetch that returns another error leaves the flag
    set although that error is no [BungieSystemDisabledError]. *)
Lemma C6_counterexample :
  (hasManifestError (doGetManifest (Rejected otherError) started) = true
   ∧ manifestData
       (doGetManifest (Fulfilled (ManifestOk tt))
          (doGetManifest (Rejected otherError) started))
     = Some tt
   ∧ hasManifestError
       (doGetManifest (Fulfilled (ManifestOk tt))
          (doGetManifest (Rejected otherError) started))
     = true)
  ∧ (isBungieSystemDisabledError otherError = false
     ∧ isBungieSystemDisabled
         (doGetManifest (Fulfilled (ManifestError otherError))
            (doGetCharacterData_catch systemDisabledError started))
       = true).
Proof. split_and!; reflexivity. Qed.

(** C7 as stated fails for the two Bungie flags: once a character-data
    fetch has failed with a [BungieSystemDisabledError] answering 503, a
    manifest fetch that goes through all its stages and succeeds leaves
    both flags set and the system-disabled message displayed. *)
Lemma C7_counterexample :
  manifestData recovered = Some tt
  ∧ hasManifestData recovered = true
  ∧ hasManifestError recovered = false
  ∧ isBungieSystemDisabled recovered = true
  ∧ isBungieServiceUnavailable recovered = true
  ∧ status recovered = BungieApiDisabled.
Proof. split_and!; reflexivity. Qed.

Lemma C7_witness :
  isBungieSystemDisabled
    (run [ManifestSettled (Fulfilled (ManifestOk tt)); Rendered]
       (doGetCharacterData_catch systemDisabledError started))
  = true
  ∧ status
      (run [ManifestSettled (Fulfilled (ManifestOk tt)); Rendered]
         (doGetCharacterData_catch systemDisabledError started))
    = BungieApiDisabled.
Proof.
  apply (C7_sticky_flags
           (doGetCharacterData_catch systemDisabledError started)
           [ManifestSettled (Fulfilled (ManifestOk tt)); Rendered]).
  reflexivity.
Defined.

Lemma C8_witness :
  dropOnCharacterId "A" loaded = loaded
  ∧ characterDisplayOrder (dropOnCharacterId "A" loaded)
    = characterDisplayOrder loaded
  ∧ persistedOrder (dropOnCharacterId "A" loaded) = persistedOrder loaded
  ∧ effects (dropOnCharacterId "A" loaded) = effects loaded.
Proof.
  apply (proj2 (C8_dragEnd_idempotent_drop_guard loaded "A")).
  left. reflexivity.
Defined.

(** C9 as stated fails for the drop: dropping "B" on "A" completes one
    swap, and "B" is still recorded as dragged afterwards. *)
Lemma C9_counterexample :
  draggingCharacterId (onDragStart "B" loaded) = Some "B"
  ∧ characterDisplayOrder (step (Dropped "A") (onDragStart "B" loaded))
    = Some ["B"; "A"]
  ∧ draggingCharacterId (step (Dropped "A") (onDragStart "B" loaded))
    = Some "B"
  ∧ draggingCharacterId (step (Dropped "A") (onDragStart "B" loaded))
    ≠ None.
Proof. split_and!; done. Qed.

Lemma C10_witness :
  useCharacterOrder (onDragStart "B" (ordered []))
  = getDefaultCharacterDisplayOrder (onDragStart "B" (ordered []))
  ∧ snd (App (onDragStart "B" (ordered []))) = onDragStart "B" (ordered [])
  ∧ characterDisplayOrder
      (dropOnCharacterId "A" (onDragStart "B" (ordered [])))
    = Some ["B"; "A"].
Proof.
  destruct (C10_empty_custom_order (onDragStart "B" (ordered [])) eq_refl)
    as (Hshown & _ & Happ & _ & _ & Hdrop).
  split; [exact Hshown | split; [exact Happ |]].
  destruct (Hdrop "A") as (_ & _ & _ & Hswap).
  destruct (Hswap "B") as [_ Hnew];
    [reflexivity | discriminate | discriminate |].
  exact Hnew.
Defined.

(** ** The further properties at concrete states *)

Lemma X3_witness :
  isFetchingCharacterData
    (run [FetchRejected otherError; Rendered] (step FetchStarted loaded))
  = true
  ∧ intervalFetches
      (run [FetchRejected otherError; Rendered] (step FetchStarted loaded))
    = false
  ∧ effectFetches
      (run [FetchRejected otherError; Rendered] (step FetchStarted loaded))
    = false.
Proof.
  apply (X3_fetching_flag_released_by_callback_only
           (step FetchStarted loaded) [FetchRejected otherError; Rendered]).
  - reflexivity.
  - intros Hin.
    apply elem_of_cons in Hin as [Heq | Hin]; [discriminate |].
    apply elem_of_cons in Hin as [Heq | Hin]; [discriminate |].
    by apply elem_of_nil in Hin.
Defined.


Lemma X8_witness :
  length
    (cards (default [] (characterData (restored ["B"; "A"])))
       (useCharacterOrder (restored ["B"; "A"])))
  = length (useCharacterOrder (restored ["B"; "A"]))
  ∧ ∃ c,
      cards (default [] (characterData (restored ["B"; "A"])))
        (useCharacterOrder (restored ["B"; "A"])) !! 0%nat
      = Some (Some c)
      ∧ c ∈ default [] (characterData (restored ["B"; "A"]))
      ∧ characterId (character c) = "B".
Proof.
  apply (X8_cards_defined (restored ["B"; "A"]) 0%nat "B"). reflexivity.
Defined.

Lemma X9_witness :
  cards (default [] (characterData (ordered ["B"; "A"])))
    (useCharacterOrder (ordered ["B"; "A"]))
  ≡ₚ map Some (default [] (characterData (ordered ["B"; "A"]))).
Proof.
  apply (X9_cards_show_every_character (ordered ["B"; "A"])).
  apply (bool_decide_unpack _). vm_compute. exact I.
Defined.

Lemma X12_witness :
  ∃ swapped,
    characterDisplayOrder (dropOnCharacterId "A" (onDragStart "B" loaded))
    = Some swapped
    ∧ isValidCharacterDisplayOrder
        (dropOnCharacterId "A" (onDragStart "B" loaded)) swapped
      = true
    ∧ useCharacterOrder (dropOnCharacterId "A" (onDragStart "B" loaded))
      = swapped
    ∧ snd (App (dropOnCharacterId "A" (onDragStart "B" loaded)))
      = dropOnCharacterId "A" (onDragStart "B" loaded).
Proof.
  apply (X12_swapped_order_is_displayed (onDragStart "B" loaded)
           [snapshot "A" 750; snapshot "B" 760] "B" "A").
  - reflexivity.
  - reflexivity.
  - reflexivity.
  - discriminate.
  - discriminate.
  - apply (bool_decide_unpack _). vm_compute. exact I.
  - apply (bool_decide_unpack _). vm_compute. exact I.
Defined.

Lemma X13_witness :
  ∃ swapped,
    characterDisplayOrder (dropOnCharacterId "A" (onDragStart "C" loaded))
    = Some swapped
    ∧ "C" ∈ swapped
    ∧ isValidCharacterDisplayOrder
        (dropOnCharacterId "A" (onDragStart "C" loaded)) swapped
      = false
    ∧ useCharacterOrder (dropOnCharacterId "A" (onDragStart "C" loaded))
      = characterIdsOf [snapshot "A" 750; snapshot "B" 760]
    ∧ characterDisplayOrder
        (snd (App (dropOnCharacterId "A" (onDragStart "C" loaded))))
      = None
    ∧ persistedOrder
        (snd (App (dropOnCharacterId "A" (onDragStart "C" loaded))))
      = Some swapped.
Proof.
  apply (X13_foreign_dragged_id_is_healed (onDragStart "C" loaded)
           [snapshot "A" 750; snapshot "B" 760] "C" "A").
  - reflexivity.
  - discriminate.
  - reflexivity.
  - discriminate.
  - apply (bool_decide_unpack _). vm_compute. exact I.
  - apply (bool_decide_unpack _). vm_compute. exact I.
  - apply (bool_decide_unpack _). vm_compute. exact I.
Defined.

Lemma X14_witness :
  ∃ swapped,
    characterDisplayOrder (dropOnCharacterId "A" (onDragStart "C" loaded))
    = Some swapped
    ∧ persistedOrder (dropOnCharacterId "A" (onDragStart "C" loaded))
      = Some swapped
    ∧ (currentCharacterOrder (onDragStart "C" loaded) ≠ [] →
       length swapped
       = length (currentCharacterOrder (onDragStart "C" loaded)))
    ∧ (currentCharacterOrder (onDragStart "C" loaded) = [] →
       swapped = ["C"]).
Proof.
  apply (X14_drop_keeps_length (onDragStart "C" loaded) "C" "A").
  - reflexivity.
  - discriminate.
  - discriminate.
Defined.

Lemma X15_witness :
  characterDisplayOrder
    (dropOnCharacterId "A"
       (dropOnCharacterId "A" (onDragStart "B" loaded)))
  = Some (currentCharacterOrder (onDragStart "B" loaded))
  ∧ persistedOrder
      (dropOnCharacterId "A"
         (dropOnCharacterId "A" (onDragStart "B" loaded)))
    = Some (currentCharacterOrder (onDragStart "B" loaded)).
Proof.
  apply (X15_drop_twice_restores (onDragStart "B" loaded) "B" "A").
  - apply (bool_decide_unpack _). vm_compute. exact I.
  - reflexivity.
  - discriminate.
  - discriminate.
  - apply (bool_decide_unpack _). vm_compute. exact I.
  - apply (bool_decide_unpack _). vm_compute. exact I.
Defined.

Lemma X16_witness :
  view (doAuth (Fulfilled false) loaded)
  = (if disableManualLogin loaded
     then LoadingView (status (doAuth (Fulfilled false) loaded))
     else LoginPromptView)
  ∧ view (doAuth (Fulfilled false) (onEvent LOG_OUT loaded))
    = LoginPromptView.
Proof.
  apply (X16_failed_auth_view (Fulfilled false) loaded). discriminate.
Defined.

Lemma X17_witness :
  isAuthed
    (run [FetchCalledBack (OnData [snapshot "A" 750]); Rendered]
       (onEvent LOG_OUT loaded))
  = false
  ∧ effectAuths
      (run [FetchCalledBack (OnData [snapshot "A" 750]); Rendered]
         (onEvent LOG_OUT loaded))
    = true
  ∧ (view
       (run [FetchCalledBack (OnData [snapshot "A" 750]); Rendered]
          (onEvent LOG_OUT loaded))
     = LoginPromptView
     ∨ view
         (run [FetchCalledBack (OnData [snapshot "A" 750]); Rendered]
            (onEvent LOG_OUT loaded))
       = LoadingView
           (status
              (run [FetchCalledBack (OnData [snapshot "A" 750]); Rendered]
                 (onEvent LOG_OUT loaded)))).
Proof.
  apply (X17_no_cards_until_authed loaded (onEvent LOG_OUT loaded)
           [FetchCalledBack (OnData [snapshot "A" 750]); Rendered]).
  - right. reflexivity.
  - intros Hin.
    apply elem_of_cons in Hin as [Heq | Hin]; [discriminate |].
    apply elem_of_cons in Hin as [Heq | Hin]; [discriminate |].
    by apply elem_of_nil in Hin.
Defined.

Lemma X18_witness :
  effects
    (doGetCharacterData (isFetchingCharacterData started)
       [OnData [snapshot "A" 750]; OnFetchingChange false]
       (Rejected otherError) started)
  = effects started
    ++ flat_map callbackEffects
         [OnData [snapshot "A" 750]; OnFetchingChange false]
  ∧ characterData
      (doGetCharacterData (isFetchingCharacterData started)
         [OnData [snapshot "A" 750]; OnFetchingChange false]
         (Rejected otherError) started)
    = from_option Some (characterData started)
        (last
           (omap deliveredData
              [OnData [snapshot "A" 750]; OnFetchingChange false]))
  ∧ isFetchingCharacterData
      (doGetCharacterData (isFetchingCharacterData started)
         [OnData [snapshot "A" 750]; OnFetchingChange false]
         (Rejected otherError) started)
    = default true
        (last
           (omap fetchingChange
              [OnData [snapshot "A" 750]; OnFetchingChange false])).
Proof.
  apply (X18_doGetCharacterData_whole_run started
           [OnData [snapshot "A" 750]; OnFetchingChange false]
           (Rejected otherError)).
  reflexivity.
Defined.
